(** * grpcurl command: target resolution, transport selection, composite
      descriptor source and exit codes

    A shallow embedding of [cmd/grpcurl/grpcurl.go].  Go values are modelled
    as follows: [string] is a byte string, [int32]/[int]/[uint32] values are
    integers in [Z], a [(T, error)] return is a [result T], a
    [map[int32]bool] is a [gmap Z bool] read with the zero value [false] for
    absent keys, and a call to [exit] ends the process. *)

From Stdlib Require Import ZArith String Ascii List Bool Lia.
From Corelib Require Import PrimFloat.
From stdpp Require Import base option list gmap strings.

Local Open Scope Z_scope.
Local Open Scope string_scope.
Local Open Scope list_scope.

(** ** Go results and errors *)

(** An [error] value.  [status.FromError] succeeds on the errors that carry a
    gRPC status and on no other. *)
Inductive error : Type :=
| errorString (text : string)
| statusError (code : Z) (text : string).


(** A Go [(T, error)] pair: the value is meaningful exactly when the error is
    [nil]. *)
Inductive result (A : Type) : Type :=
| Ok (a : A)
| Err (e : error).
Arguments Ok {A} a.
Arguments Err {A} e.

(** ** The composite descriptor source *)

Section Composite.
(** [desc.Descriptor] and [*desc.FieldDescriptor] belong to protoreflect;
    of a field descriptor only [GetNumber] (an [int32]) is used. *)
Variable Descriptor : Type.
Variable FieldDescriptor : Type.
Variable GetNumber : FieldDescriptor -> Z.

(** The interface [grpcurl.DescriptorSource]: an interface value is its
    method table. *)
Record DescriptorSource : Type := {
  ListServices : result (list string);
  FindSymbol : string -> result Descriptor;
  AllExtensionsForType : string -> result (list FieldDescriptor)
}.

Record compositeSource : Type := {
  reflection : DescriptorSource;
  file : DescriptorSource
}.

Definition compositeSource_ListServices (cs : compositeSource)
  : result (list string) :=
  ListServices (reflection cs).

Definition compositeSource_FindSymbol (cs : compositeSource)
    (fullyQualifiedName : string) : result Descriptor :=
  match FindSymbol (reflection cs) fullyQualifiedName with
  | Ok d => Ok d
  | Err _ => FindSymbol (file cs) fullyQualifiedName
  end.

(** [tags[k]] on a [map[int32]bool]. *)
Definition map_index (tags : gmap Z bool) (k : Z) : bool :=
  default false (tags !! k).

(** First loop: [tags[ext.GetNumber()] = true] for each reflection
    extension. *)
Definition track_tags (exts : list FieldDescriptor) : gmap Z bool :=
  foldl (fun tags ext => <[GetNumber ext := true]> tags) ∅ exts.

(** Second loop: append the file extensions whose tag is not tracked. *)
Definition append_untracked (tags : gmap Z bool)
    (exts fileExts : list FieldDescriptor) : list FieldDescriptor :=
  foldl (fun exts ext =>
           if negb (map_index tags (GetNumber ext))
           then exts ++ [ext] else exts)
        exts fileExts.

Definition compositeSource_AllExtensionsForType (cs : compositeSource)
    (typeName : string) : result (list FieldDescriptor) :=
  match AllExtensionsForType (reflection cs) typeName with
  | Err _ => AllExtensionsForType (file cs) typeName
  | Ok exts =>
      let tags := track_tags exts in
      match AllExtensionsForType (file cs) typeName with
      | Err _ => Ok exts
      | Ok fileExts => Ok (append_untracked tags exts fileExts)
      end
  end.

(** [compositeSource] implements [grpcurl.DescriptorSource]. *)
Definition compositeSource_DescriptorSource (cs : compositeSource)
  : DescriptorSource :=
  {| ListServices := compositeSource_ListServices cs;
     FindSymbol := compositeSource_FindSymbol cs;
     AllExtensionsForType := compositeSource_AllExtensionsForType cs |}.
End Composite.

Arguments ListServices {Descriptor FieldDescriptor} _.
Arguments FindSymbol {Descriptor FieldDescriptor} _ _.
Arguments AllExtensionsForType {Descriptor FieldDescriptor} _ _.
Arguments reflection {Descriptor FieldDescriptor} _.
Arguments file {Descriptor FieldDescriptor} _.
Arguments Build_DescriptorSource {Descriptor FieldDescriptor} _ _ _.
Arguments Build_compositeSource {Descriptor FieldDescriptor} _ _.
Arguments compositeSource_ListServices {Descriptor FieldDescriptor} _.
Arguments compositeSource_FindSymbol {Descriptor FieldDescriptor} _ _.
Arguments compositeSource_AllExtensionsForType
  {Descriptor FieldDescriptor} GetNumber _ _.
Arguments track_tags {FieldDescriptor} GetNumber _.
Arguments append_untracked {FieldDescriptor} GetNumber _ _ _.

(** ** Go string helpers *)

Module strings.

Definition HasPrefix (s prefix : string) : bool := String.prefix prefix s.

Definition HasSuffix (s suffix : string) : bool :=
  let n := String.length s in
  let m := String.length suffix in
  (m <=? n)%nat && String.eqb (substring (n - m) m s) suffix.

(** [strings.LastIndexByte]: [None] stands for [-1]. *)
Fixpoint LastIndexByte (s : string) (c : ascii) : option nat :=
  match s with
  | EmptyString => None
  | String b rest =>
      match LastIndexByte rest c with
      | Some i => Some (S i)
      | None => if Ascii.eqb b c then Some 0%nat else None
      end
  end.

(** [strings.IndexByte]. *)
Fixpoint IndexByte (s : string) (c : ascii) : option nat :=
  match s with
  | EmptyString => None
  | String b rest =>
      if Ascii.eqb b c then Some 0%nat
      else option_map S (IndexByte rest c)
  end.

(** [s[i:]] and [s[:i]]. *)
Definition from (i : nat) (s : string) : string :=
  substring i (String.length s - i) s.
Definition upto (i : nat) (s : string) : string := substring 0 i s.

(** [strings.Cut] with a one-byte separator. *)
Definition Cut (s : string) (sep : ascii) : string * string * bool :=
  match IndexByte s sep with
  | Some i => (upto i s, from (S i) s, true)
  | None => (s, "", false)
  end.

Definition lower_byte (c : ascii) : ascii :=
  let n := nat_of_ascii c in
  if (65 <=? n)%nat && (n <=? 90)%nat then ascii_of_nat (n + 32) else c.

(** [strings.ToLower] on ASCII text. *)
Fixpoint ToLower (s : string) : string :=
  match s with
  | EmptyString => EmptyString
  | String c rest => String (lower_byte c) (ToLower rest)
  end.

End strings.

(** ** The parts of Go's [net/url] that [parseTarget] calls

    [net/url] is Go's standard library.  [Hostname] and [Port] follow its
    [splitHostPort]; [url.Parse] itself is a parameter of [parseTarget]
    below.  [ParseSimple] is a stand-in for [url.Parse] on which the examples
    run: it follows [url.Parse] on text that carries no percent escape and no
    userinfo, and it does not vet the bytes of a host name. *)

Module url.

Record URL : Type := {
  Scheme : string;
  Opaque : string;
  Host : string;
  Path : string;
  RawQuery : string;
  Fragment : string
}.

Definition is_digit (b : ascii) : bool :=
  let n := nat_of_ascii b in (48 <=? n)%nat && (n <=? 57)%nat.

Definition is_alpha (b : ascii) : bool :=
  let n := nat_of_ascii b in
  ((97 <=? n)%nat && (n <=? 122)%nat) || ((65 <=? n)%nat && (n <=? 90)%nat).

Fixpoint all_digits (s : string) : bool :=
  match s with
  | EmptyString => true
  | String b rest => is_digit b && all_digits rest
  end.

(** [validOptionalPort]: the text is empty or a colon followed by digits. *)
Definition validOptionalPort (port : string) : bool :=
  match port with
  | EmptyString => true
  | String c rest => if Ascii.eqb c ":" then all_digits rest else false
  end.

Definition splitHostPort (hostPort : string) : string * string :=
  let host := hostPort in
  let '(host, port) :=
    match strings.LastIndexByte host ":" with
    | Some colon =>
        if validOptionalPort (strings.from colon host)
        then (strings.upto colon host, strings.from (S colon) host)
        else (host, "")
    | None => (host, "")
    end in
  let host :=
    if strings.HasPrefix host "[" && strings.HasSuffix host "]"
    then substring 1 (String.length host - 2) host
    else host in
  (host, port).

Definition Hostname (u : URL) : string := fst (splitHostPort (Host u)).
Definition Port (u : URL) : string := snd (splitHostPort (Host u)).

(** [getScheme]: [None] is the error "missing protocol scheme". *)
Fixpoint getScheme_loop (i : nat) (rest rawURL : string)
  : option (string * string) :=
  match rest with
  | EmptyString => Some ("", rawURL)
  | String c rest' =>
      if is_alpha c then getScheme_loop (S i) rest' rawURL
      else if is_digit c || Ascii.eqb c "+" || Ascii.eqb c "-"
              || Ascii.eqb c "."
      then (if (i =? 0)%nat then Some ("", rawURL)
            else getScheme_loop (S i) rest' rawURL)
      else if Ascii.eqb c ":"
      then (if (i =? 0)%nat then None
            else Some (strings.upto i rawURL, rest'))
      else Some ("", rawURL)
  end.

Definition getScheme (rawURL : string) : option (string * string) :=
  getScheme_loop 0 rawURL rawURL.

Fixpoint stringContainsCTLByte (s : string) : bool :=
  match s with
  | EmptyString => false
  | String b rest =>
      let n := nat_of_ascii b in
      (n <? 32)%nat || (n =? 127)%nat || stringContainsCTLByte rest
  end.

Fixpoint count_byte (s : string) (c : ascii) : nat :=
  match s with
  | EmptyString => 0%nat
  | String b rest => ((if Ascii.eqb b c then 1 else 0) + count_byte rest c)%nat
  end.

(** [parseHost] without unescaping: only the bracket and port checks. *)
Definition parseHost (host : string) : option string :=
  if strings.HasPrefix host "["
  then match strings.LastIndexByte host "]" with
       | None => None
       | Some i =>
           if validOptionalPort (strings.from (S i) host)
           then Some host else None
       end
  else match strings.LastIndexByte host ":" with
       | Some i =>
           if validOptionalPort (strings.from i host) then Some host else None
       | None => Some host
       end.

Definition parse (rawURL : string) : option URL :=
  if stringContainsCTLByte rawURL then None
  else if String.eqb rawURL "*"
  then Some {| Scheme := ""; Opaque := ""; Host := ""; Path := "*";
               RawQuery := ""; Fragment := "" |}
  else
    match getScheme rawURL with
    | None => None
    | Some (scheme, rest) =>
        let scheme := strings.ToLower scheme in
        let '(rest, query) :=
          if strings.HasSuffix rest "?" && (count_byte rest "?" =? 1)%nat
          then (strings.upto (String.length rest - 1) rest, "")
          else let '(r, q, _) := strings.Cut rest "?" in (r, q) in
        if negb (strings.HasPrefix rest "/") && negb (String.eqb scheme "")
        then Some {| Scheme := scheme; Opaque := rest; Host := "";
                     Path := ""; RawQuery := query; Fragment := "" |}
        else if negb (strings.HasPrefix rest "/")
                && (let '(segment, _, _) := strings.Cut rest "/" in
                    match strings.IndexByte segment ":" with
                    | Some _ => true
                    | None => false
                    end)
        then None
        else if (negb (String.eqb scheme "")
                 || negb (strings.HasPrefix rest "///"))
                && strings.HasPrefix rest "//"
        then
          let authority := strings.from 2 rest in
          let '(authority, rest) :=
            match strings.IndexByte authority "/" with
            | Some i => (strings.upto i authority, strings.from i authority)
            | None => (authority, "")
            end in
          match parseHost authority with
          | None => None
          | Some host =>
              Some {| Scheme := scheme; Opaque := ""; Host := host;
                      Path := rest; RawQuery := query; Fragment := "" |}
          end
        else Some {| Scheme := scheme; Opaque := ""; Host := "";
                     Path := rest; RawQuery := query; Fragment := "" |}
    end.

Definition ParseSimple (rawURL : string) : option URL :=
  let '(u, frag, _) := strings.Cut rawURL "#" in
  match parse u with
  | None => None
  | Some url =>
      Some {| Scheme := Scheme url; Opaque := Opaque url; Host := Host url;
              Path := Path url; RawQuery := RawQuery url; Fragment := frag |}
  end.

End url.

(** ** Target resolution *)

(** [parsedTarget] holds the components of a parsed URL target. *)
Record parsedTarget : Type := {
  address : string;
  scheme : string;
  host : string;
  port : string;
  path : string;
  useTLS : bool;
  wasURL : bool
}.

(** The literal returned on every path that does not decompose the target:
    only the [scheme] field varies. *)
Definition passthrough (target sch : string) : parsedTarget :=
  {| address := target; scheme := sch; host := target; port := "";
     path := ""; useTLS := false; wasURL := false |}.

Section Target.
(** [url.Parse] of [net/url]. *)
Variable url_Parse : string -> result url.URL.

Definition parseTarget (target : string) : result parsedTarget :=
  if strings.HasPrefix target "unix://" || strings.HasPrefix target "xds:///"
  then Ok (passthrough target "")
  else
    match url_Parse target with
    | Err _ => Ok (passthrough target "")
    | Ok parsed =>
        if negb (String.eqb (url.Scheme parsed) "")
           && negb (String.eqb (url.Scheme parsed) "http")
           && negb (String.eqb (url.Scheme parsed) "https")
        then
          if String.eqb (url.Host parsed) ""
             && String.eqb (url.Path parsed) ""
             && String.eqb (url.RawQuery parsed) ""
             && String.eqb (url.Fragment parsed) ""
          then Ok (passthrough target "")
          else Ok (passthrough target (url.Scheme parsed))
        else if String.eqb (url.Scheme parsed) ""
        then Ok (passthrough target "")
        else if String.eqb (url.Scheme parsed) "http"
                || String.eqb (url.Scheme parsed) "https"
        then
          let host := url.Hostname parsed in
          let port := url.Port parsed in
          let port :=
            if String.eqb port ""
            then (if String.eqb (url.Scheme parsed) "https"
                  then "443" else "80")
            else port in
          let address := host +:+ ":" +:+ port in
          Ok {| address := address;
                scheme := url.Scheme parsed;
                host := host;
                port := port;
                path := url.Path parsed;
                useTLS := String.eqb (url.Scheme parsed) "https";
                wasURL := true |}
        else Ok (passthrough target "")
    end.
End Target.

(** [url.Parse] played by [url.ParseSimple]. *)
Definition url_ParseSimple (rawURL : string) : result url.URL :=
  match url.ParseSimple rawURL with
  | Some u => Ok u
  | None => Err (errorString "parse error")
  end.

(** ** Processes: output, dialing and [exit] *)


Definition noVersion : string := "dev build <no version set>".

(** The newline byte. *)
Definition nl : string := String (ascii_of_nat 10) EmptyString.

(** [status.Status]; a [nil] status is [None] and has code [OK]. *)
Record Status : Type := {
  status_code : Z;
  status_message : string
}.




(** A [time.Duration], with [floatSecondsToDuration] left uninterpreted. *)
Inductive Duration : Type :=
| Seconds (n : Z)
| floatSecondsToDuration (seconds : float).

Record tls_Config : Type := {
  InsecureSkipVerify : bool;
  RootCAs : string;
  Certificates : string * string;
  ServerName : string;
  KeyLogWriter : option string
}.

Record alts_ClientOptions : Type := {
  TargetServiceAccounts : list string;
  HandshakerServiceAddress : string
}.

Inductive TransportCredentials : Type :=
| alts_NewClientCreds (clientOptions : alts_ClientOptions)
| credentials_NewTLS (tlsConf : tls_Config).

Inductive DialOption : Type :=
| WithKeepaliveParams (time timeout : Duration)
| WithMaxCallRecvMsgSize (n : Z)
| WithAuthority (name : string)
| WithUserAgent (ua : string).

(** A [*grpc.ClientConn], known by what it was dialed with. *)
Record ClientConn : Type := {
  cc_timeout : Duration;
  cc_target : string;
  cc_creds : option TransportCredentials;
  cc_opts : list DialOption
}.

Inductive stream : Type := Stdout | Stderr.

Inductive value : Type :=
| VString (s : string)
| VInt (n : Z)
| VError (e : error).

(** What a run does that the outside can see. *)
Inductive event : Type :=
| Fprintf (w : stream) (format : string) (args : list value)
| Fprintln (w : stream)
| Fprint (w : stream) (text : string)
| PrintStatus (w : stream) (stat : option Status)
| BlockingDial (conn : ClientConn).

Inductive outcome (A : Type) : Type :=
| Ret (a : A)
| Exited (code : Z)
| Panicked (msg : string).
Arguments Ret {A} a.
Arguments Exited {A} code.
Arguments Panicked {A} msg.

Definition proc (A : Type) : Type := list event -> outcome A * list event.

Definition ret {A} (a : A) : proc A := fun t => (Ret a, t).

Definition bind {A B} (m : proc A) (k : A -> proc B) : proc B :=
  fun t =>
    match m t with
    | (Ret a, t') => k a t'
    | (Exited code, t') => (Exited code, t')
    | (Panicked msg, t') => (Panicked msg, t')
    end.

Declare Scope proc_scope.
Delimit Scope proc_scope with proc.
Notation "x <- m ;; k" := (bind m (fun x => k))
  (at level 100, m at next level, right associativity) : proc_scope.
Notation "m ;; k" := (bind m (fun _ => k))
  (at level 100, right associativity) : proc_scope.
Local Open Scope proc_scope.

Definition emit (e : event) : proc unit := fun t => (Ret tt, t ++ [e]).

(** [exit = os.Exit]: the process ends with this code. *)
Definition exit {A} (code : Z) : proc A := fun t => (Exited code, t).

Definition panic {A} (msg : string) : proc A := fun t => (Panicked msg, t).

Definition when (b : bool) (m : proc unit) : proc unit :=
  if b then m else ret tt.

(** The externals a run depends on: the program name, the build version,
    the platform hook [isUnixSocket] ([None] when [nil]), the environment,
    the file system, and the functions of package [grpcurl]. *)
Record Externals : Type := {
  Args0 : string;
  version : string;
  isUnixSocket : option bool;
  SSLKEYLOGFILE : string;
  os_OpenFile : string -> result string;
  alts_DefaultClientOptions : alts_ClientOptions;
  grpcurl_ClientTLSConfig : bool -> string -> string -> string
                            -> result tls_Config;
  grpcurl_BlockingDial : ClientConn -> option error;
  formatter : option Status -> string * option error
}.

(** ** Command-line flags *)

Module flags.

Record optionalBoolFlag : Type := {
  set : bool;
  val : bool
}.

(** The package-level flag variables, after [flags.Parse]. *)
Record t : Type := {
  help : bool;
  printVersion : bool;
  plaintext : bool;
  insecure : bool;
  cacert : string;
  cert : string;
  key : string;
  usealts : bool;
  altsHandshakerServiceAddress : string;
  altsTargetServiceAccounts : list string;
  protoset : list string;
  protoFiles : list string;
  importPaths : list string;
  addlHeaders : list string;
  rpcHeaders : list string;
  reflHeaders : list string;
  expandHeaders : bool;
  authority : string;
  userAgent : string;
  data : string;
  format : string;
  allowUnknownFields : bool;
  connectTimeout : float;
  formatError : bool;
  keepaliveTime : float;
  maxTime : float;
  maxMsgSz : Z;
  emitDefaults : bool;
  protosetOut : string;
  protoOut : string;
  msgTemplate : bool;
  verbose : bool;
  veryVerbose : bool;
  serverName : string;
  reflection : optionalBoolFlag
}.

(** Every flag at its declared default. *)
Definition defaults : t :=
  {| help := false; printVersion := false; plaintext := false;
     insecure := false; cacert := ""; cert := ""; key := "";
     usealts := false; altsHandshakerServiceAddress := "";
     altsTargetServiceAccounts := []; protoset := []; protoFiles := [];
     importPaths := []; addlHeaders := []; rpcHeaders := [];
     reflHeaders := []; expandHeaders := false; authority := "";
     userAgent := ""; data := ""; format := "json";
     allowUnknownFields := false; connectTimeout := 0%float;
     formatError := false; keepaliveTime := 0%float; maxTime := 0%float;
     maxMsgSz := 0; emitDefaults := false; protosetOut := "";
     protoOut := ""; msgTemplate := false; verbose := false;
     veryVerbose := false; serverName := "";
     reflection := {| set := false; val := true |} |}.

(** The flags with [-servername] given as [name]. *)
Definition with_serverName (name : string) (f : t) : t :=
  {| help := help f; printVersion := printVersion f;
     plaintext := plaintext f; insecure := insecure f; cacert := cacert f;
     cert := cert f; key := key f; usealts := usealts f;
     altsHandshakerServiceAddress := altsHandshakerServiceAddress f;
     altsTargetServiceAccounts := altsTargetServiceAccounts f;
     protoset := protoset f; protoFiles := protoFiles f;
     importPaths := importPaths f; addlHeaders := addlHeaders f;
     rpcHeaders := rpcHeaders f; reflHeaders := reflHeaders f;
     expandHeaders := expandHeaders f; authority := authority f;
     userAgent := userAgent f; data := data f; format := format f;
     allowUnknownFields := allowUnknownFields f;
     connectTimeout := connectTimeout f; formatError := formatError f;
     keepaliveTime := keepaliveTime f; maxTime := maxTime f;
     maxMsgSz := maxMsgSz f; emitDefaults := emitDefaults f;
     protosetOut := protosetOut f; protoOut := protoOut f;
     msgTemplate := msgTemplate f; verbose := verbose f;
     veryVerbose := veryVerbose f; serverName := name;
     reflection := reflection f |}.

(** The defaults with the transport flags given. *)
Definition make (plaintext insecure usealts : bool)
    (cert key authority serverName : string) : t :=
  {| help := false; printVersion := false; plaintext := plaintext;
     insecure := insecure; cacert := ""; cert := cert; key := key;
     usealts := usealts; altsHandshakerServiceAddress := "";
     altsTargetServiceAccounts := []; protoset := []; protoFiles := [];
     importPaths := []; addlHeaders := []; rpcHeaders := [];
     reflHeaders := []; expandHeaders := false; authority := authority;
     userAgent := ""; data := ""; format := "json";
     allowUnknownFields := false; connectTimeout := 0%float;
     formatError := false; keepaliveTime := 0%float; maxTime := 0%float;
     maxMsgSz := 0; emitDefaults := false; protosetOut := "";
     protoOut := ""; msgTemplate := false; verbose := false;
     veryVerbose := false; serverName := serverName;
     reflection := {| set := false; val := true |} |}.

End flags.

Section Process.
Variable ext : Externals.

Definition warn (msg : string) : proc unit :=
  emit (Fprintf Stderr ("Warning: " +:+ msg +:+ nl) []).

Definition fail {A} (err : option error) (msg : string) (args : list value)
  : proc A :=
  match err with
  | Some e =>
      emit (Fprintf Stderr (msg +:+ ": %v") (args ++ [VError e]));;
      emit (Fprintln Stderr);;
      exit 1
  | None =>
      emit (Fprintf Stderr msg args);;
      emit (Fprintln Stderr);;
      emit (Fprintf Stderr ("Try '%s -help' for more details." +:+ nl)
              [VString (Args0 ext)]);;
      exit 2
  end.
Variable url_Parse : string -> result url.URL.
Variable fl : flags.t.

(** *** [main], lines 455-470: the target argument *)

Definition main_target (args0 : string) : proc (string * option parsedTarget) :=
  if negb (String.eqb args0 "list") && negb (String.eqb args0 "describe")
  then
    let target := args0 in
    match parseTarget url_Parse target with
    | Err err =>
        fail (Some err) "Failed to parse target address %q" [VString target]
    | Ok parsedAddr => ret (address parsedAddr, Some parsedAddr)
    end
  else ret ("", None).

(** *** [main], lines 557-574: TLS by default, overridden by a URL scheme *)

Definition main_usetls (parsedAddr : option parsedTarget) : proc (bool * bool) :=
  let usetls := negb (flags.plaintext fl) && negb (flags.usealts fl) in
  let forcePlaintext := flags.plaintext fl in
  match parsedAddr with
  | Some parsedAddr =>
      if wasURL parsedAddr
      then
        when (useTLS parsedAddr
              && (flags.plaintext fl || flags.usealts fl))
          (fail None "Target URL scheme 'https' requires TLS but -plaintext or -alts flag is set." []);;
        if negb (useTLS parsedAddr) && negb (flags.plaintext fl)
           && negb (flags.usealts fl)
        then ret (false, true)
        else if useTLS parsedAddr && negb (flags.plaintext fl)
                && negb (flags.usealts fl)
        then ret (true, forcePlaintext)
        else ret (usetls, forcePlaintext)
      else ret (usetls, forcePlaintext)
  | None => ret (usetls, forcePlaintext)
  end.

(** *** [main], lines 576-615: validation of the arguments *)

Definition main_validate (usetls : bool) : proc unit :=
  when (flags.connectTimeout fl <? 0)%float
    (fail None "The -connect-timeout argument must not be negative." []);;
  when (flags.keepaliveTime fl <? 0)%float
    (fail None "The -keepalive-time argument must not be negative." []);;
  when (flags.maxTime fl <? 0)%float
    (fail None "The -max-time argument must not be negative." []);;
  when (flags.maxMsgSz fl <? 0)%Z
    (fail None "The -max-msg-sz argument must not be negative." []);;
  when (flags.plaintext fl && flags.usealts fl)
    (fail None "The -plaintext and -alts arguments are mutually exclusive." []);;
  when (flags.insecure fl && negb usetls)
    (fail None "The -insecure argument can only be used with TLS." []);;
  when (negb (String.eqb (flags.cert fl) "") && negb usetls)
    (fail None "The -cert argument can only be used with TLS." []);;
  when (negb (String.eqb (flags.key fl) "") && negb usetls)
    (fail None "The -key argument can only be used with TLS." []);;
  when (negb (Bool.eqb (String.eqb (flags.key fl) "")
                       (String.eqb (flags.cert fl) "")))
    (fail None "The -cert and -key arguments must be used together and both be present." []);;
  when (negb (String.eqb (flags.altsHandshakerServiceAddress fl) "")
        && negb (flags.usealts fl))
    (fail None "The -alts-handshaker-service argument must be used with the -alts argument." []);;
  when ((0 <? length (flags.altsTargetServiceAccounts fl))%nat
        && negb (flags.usealts fl))
    (fail None "The -alts-target-service-account argument must be used with the -alts argument." []);;
  when (negb (String.eqb (flags.format fl) "json")
        && negb (String.eqb (flags.format fl) "text"))
    (fail None "The -format option must be 'json' or 'text'." []);;
  when (flags.emitDefaults fl && negb (String.eqb (flags.format fl) "json"))
    (warn "The -emit-defaults is only used when using json format.").

(** *** [main], lines 617-721: the [dial] closure

    The timing data gathered under [-vv] is diagnostics and is left out. *)

Definition set_ServerName (tlsConf : tls_Config) (name : string) : tls_Config :=
  {| InsecureSkipVerify := InsecureSkipVerify tlsConf;
     RootCAs := RootCAs tlsConf;
     Certificates := Certificates tlsConf;
     ServerName := name;
     KeyLogWriter := KeyLogWriter tlsConf |}.

Definition set_KeyLogWriter (tlsConf : tls_Config) (w : string) : tls_Config :=
  {| InsecureSkipVerify := InsecureSkipVerify tlsConf;
     RootCAs := RootCAs tlsConf;
     Certificates := Certificates tlsConf;
     ServerName := ServerName tlsConf;
     KeyLogWriter := Some w |}.

(** The [else if usetls] branch: credentials and options for TLS. *)
Definition dial_tls (parsedAddr : option parsedTarget) (opts : list DialOption)
  : proc (option TransportCredentials * list DialOption) :=
  tlsConf <-
    match grpcurl_ClientTLSConfig ext (flags.insecure fl) (flags.cacert fl)
            (flags.cert fl) (flags.key fl) with
    | Err err => fail (Some err) "Failed to create TLS config" []
    | Ok tlsConf => ret tlsConf
    end;;
  let tlsConf :=
    match parsedAddr with
    | Some parsedAddr =>
        if wasURL parsedAddr && negb (String.eqb (path parsedAddr) "")
           && negb (String.eqb (path parsedAddr) "/")
        then set_ServerName tlsConf (host parsedAddr) else tlsConf
    | None => tlsConf
    end in
  let sslKeylogFile := SSLKEYLOGFILE ext in
  tlsConf <-
    (if negb (String.eqb sslKeylogFile "")
     then match os_OpenFile ext sslKeylogFile with
          | Err err =>
              fail (Some err) "Could not open SSLKEYLOGFILE %s"
                [VString sslKeylogFile]
          | Ok w => ret (set_KeyLogWriter tlsConf w)
          end
     else ret tlsConf);;
  let creds := credentials_NewTLS tlsConf in
  (if negb (String.eqb (flags.serverName fl) "")
      && negb (String.eqb (flags.authority fl) "")
   then if String.eqb (flags.serverName fl) (flags.authority fl)
        then warn "Both -servername and -authority are present; prefer only -authority."
        else fail None "Cannot specify different values for -servername and -authority." []
   else ret tt);;
  let overrideName := flags.serverName fl in
  let overrideName :=
    if String.eqb overrideName "" then flags.authority fl else overrideName in
  let opts :=
    if negb (String.eqb overrideName "")
    then opts ++ [WithAuthority overrideName] else opts in
  ret (Some creds, opts).

Definition dial (parsedAddr : option parsedTarget) (target : string)
    (usetls forcePlaintext : bool) : proc ClientConn :=
  let dialTime :=
    if (0 <? flags.connectTimeout fl)%float
    then floatSecondsToDuration (flags.connectTimeout fl)
    else Seconds 10 in
  let opts : list DialOption := [] in
  let opts :=
    if (0 <? flags.keepaliveTime fl)%float
    then let timeout := floatSecondsToDuration (flags.keepaliveTime fl) in
         opts ++ [WithKeepaliveParams timeout timeout]
    else opts in
  let opts :=
    if (0 <? flags.maxMsgSz fl)%Z
    then opts ++ [WithMaxCallRecvMsgSize (flags.maxMsgSz fl)] else opts in
  let target :=
    if match isUnixSocket ext with Some b => b | None => false end
       && negb (strings.HasPrefix target "unix://")
    then "unix://" +:+ target else target in
  co <-
    (if forcePlaintext
     then ret (None,
               if negb (String.eqb (flags.authority fl) "")
               then opts ++ [WithAuthority (flags.authority fl)] else opts)
     else if flags.usealts fl
     then
       let clientOptions := alts_DefaultClientOptions ext in
       let clientOptions :=
         if (0 <? length (flags.altsTargetServiceAccounts fl))%nat
         then {| TargetServiceAccounts := flags.altsTargetServiceAccounts fl;
                 HandshakerServiceAddress :=
                   HandshakerServiceAddress clientOptions |}
         else clientOptions in
       let clientOptions :=
         if negb (String.eqb (flags.altsHandshakerServiceAddress fl) "")
         then {| TargetServiceAccounts := TargetServiceAccounts clientOptions;
                 HandshakerServiceAddress :=
                   flags.altsHandshakerServiceAddress fl |}
         else clientOptions in
       ret (Some (alts_NewClientCreds clientOptions), opts)
     else if usetls
     then dial_tls parsedAddr opts
     else panic "Should have defaulted to use TLS.");;
  let creds := fst co in
  let opts := snd co in
  let grpcurlUA := "grpcurl/" +:+ version ext in
  let grpcurlUA :=
    if String.eqb (version ext) noVersion
    then "grpcurl/dev-build (no version set)" else grpcurlUA in
  let grpcurlUA :=
    if negb (String.eqb (flags.userAgent fl) "")
    then flags.userAgent fl +:+ " " +:+ grpcurlUA else grpcurlUA in
  let opts := opts ++ [WithUserAgent grpcurlUA] in
  let cc := {| cc_timeout := dialTime; cc_target := target;
               cc_creds := creds; cc_opts := opts |} in
  emit (BlockingDial cc);;
  match grpcurl_BlockingDial ext cc with
  | Some err =>
      fail (Some err) "Failed to dial target host %q" [VString target]
  | None => ret cc
  end.

(** *** From the target argument to the connection

    Lines 472-555 (verb and argument counts, the [-max-time] context) and
    lines 722-767 (header expansion, descriptor files) sit between these
    steps; they read none of [usetls], [forcePlaintext] and [parsedAddr].
    [dial] runs at line 771 or 950. *)

Definition main_dial (parsedAddr : option parsedTarget) (target : string)
  : proc ClientConn :=
  uf <- main_usetls parsedAddr;;
  let usetls := fst uf in
  let forcePlaintext := snd uf in
  main_validate usetls;;
  dial parsedAddr target usetls forcePlaintext.

Definition main_connect (args0 : string) : proc ClientConn :=
  tp <- main_target args0;;
  let target := fst tp in
  let parsedAddr := snd tp in
  main_dial parsedAddr target.

(** *** [main], lines 979-1007: from the RPC outcome to the exit code *)




End Process.

Definition run {A} (m : proc A) : outcome A * list event := m [].

Definition is_dial (e : event) : bool :=
  match e with
  | BlockingDial _ => true
  | _ => false
  end.

(** No [grpcurl.BlockingDial] among the events. *)
Definition never_dialed (t : list event) : bool :=
  forallb (fun e => negb (is_dial e)) t.

(** A step that ends the process with the usage exit code 2, having written
    its messages and dialed nothing. *)
Definition exits_usage {A} (m : proc A) : Prop :=
  forall t, exists es,
    never_dialed es = true /\ m t = (Exited 2, t ++ es).

(** A step that either goes on or ends the process as [exits_usage] does;
    it dials nothing either way. *)
Definition checks_usage {A} (m : proc A) : Prop :=
  forall t, exists es,
    never_dialed es = true
    /\ ((exists a, m t = (Ret a, t ++ es)) \/ m t = (Exited 2, t ++ es)).

(** ** Data for the examples *)

Module Examples.

(** A field descriptor as a name and a tag number. *)
Definition field : Type := string * Z.
Definition number (f : field) : Z := snd f.

Definition source (svcs : list string) (syms : list (string * string))
    (exts : result (list field)) : DescriptorSource string field :=
  {| ListServices := Ok svcs;
     FindSymbol := fun name =>
       match List.find (fun p => String.eqb (fst p) name) syms with
       | Some p => Ok (snd p)
       | None => Err (errorString ("Symbol not found: " +:+ name))
       end;
     AllExtensionsForType := fun _ => exts |}.

Definition reflSource : DescriptorSource string field :=
  source ["live.Service"] [("live.Service", "service live.Service")]
    (Ok [("refl_ext_5", 5)]).

Definition fileSource : DescriptorSource string field :=
  source ["file.Service"] [("file.Message", "message file.Message")]
    (Ok [("file_ext_5", 5); ("file_ext_7", 7)]).

Definition both : compositeSource string field :=
  {| reflection := reflSource; file := fileSource |}.

Definition ext : Externals :=
  {| Args0 := "grpcurl";
     version := noVersion;
     isUnixSocket := None;
     SSLKEYLOGFILE := "";
     os_OpenFile := fun name => Ok name;
     alts_DefaultClientOptions :=
       {| TargetServiceAccounts := [];
          HandshakerServiceAddress := "metadata.google.internal.:8080" |};
     grpcurl_ClientTLSConfig := fun insecure cacert cert key =>
       Ok {| InsecureSkipVerify := insecure; RootCAs := cacert;
             Certificates := (cert, key); ServerName := "";
             KeyLogWriter := None |};
     grpcurl_BlockingDial := fun _ => None;
     formatter := fun _ => ("", None) |}.

(** [-plaintext -servername override.example]. *)
Definition plaintext_servername : flags.t :=
  flags.make true false false "" "" "" "override.example".

(** [-plaintext -insecure]. *)
Definition plaintext_insecure : flags.t :=
  flags.make true true false "" "" "" "".

(** [-plaintext] alone. *)
Definition plaintext_only : flags.t :=
  flags.make true false false "" "" "" "".

(** The connection dialed to [target] with no credentials and no option
    but the user agent. *)
Definition plain_conn (target : string) : ClientConn :=
  {| cc_timeout := Seconds 10; cc_target := target; cc_creds := None;
     cc_opts := [WithUserAgent "grpcurl/dev-build (no version set)"] |}.

(** The same over TLS, with the server name [name]. *)
Definition tls_conn (target name : string) : ClientConn :=
  {| cc_timeout := Seconds 10; cc_target := target;
     cc_creds :=
       Some (credentials_NewTLS
               {| InsecureSkipVerify := false; RootCAs := "";
                  Certificates := ("", ""); ServerName := name;
                  KeyLogWriter := None |});
     cc_opts := [WithUserAgent "grpcurl/dev-build (no version set)"] |}.



(** The target "https://example.com/svc", resolved. *)
Definition https_svc : parsedTarget :=
  {| address := "example.com:443"; scheme := "https"; host := "example.com";
     port := "443"; path := "/svc"; useTLS := true; wasURL := true |}.

(** The target "http://example.com:8080", resolved. *)
Definition http_8080 : parsedTarget :=
  {| address := "example.com:8080"; scheme := "http"; host := "example.com";
     port := "8080"; path := ""; useTLS := false; wasURL := true |}.

(** What [url.Parse] yields on "myhost:1234". *)
Definition misread : url.URL :=
  {| url.Scheme := "myhost"; url.Opaque := "1234"; url.Host := "";
     url.Path := ""; url.RawQuery := ""; url.Fragment := "" |}.

(** What [url.Parse] yields on "https://[::1]:8443/svc". *)
Definition ipv6_url : url.URL :=
  {| url.Scheme := "https"; url.Opaque := ""; url.Host := "[::1]:8443";
     url.Path := "/svc"; url.RawQuery := ""; url.Fragment := "" |}.

End Examples.

(** * More of the command *)

(** ** Vocabulary for the transport properties *)

(** The flags with [-authority] given as [name]. *)
Definition with_authority (name : string) (f : flags.t) : flags.t :=
  {| flags.help := flags.help f; flags.printVersion := flags.printVersion f;
     flags.plaintext := flags.plaintext f; flags.insecure := flags.insecure f;
     flags.cacert := flags.cacert f; flags.cert := flags.cert f;
     flags.key := flags.key f; flags.usealts := flags.usealts f;
     flags.altsHandshakerServiceAddress :=
       flags.altsHandshakerServiceAddress f;
     flags.altsTargetServiceAccounts := flags.altsTargetServiceAccounts f;
     flags.protoset := flags.protoset f;
     flags.protoFiles := flags.protoFiles f;
     flags.importPaths := flags.importPaths f;
     flags.addlHeaders := flags.addlHeaders f;
     flags.rpcHeaders := flags.rpcHeaders f;
     flags.reflHeaders := flags.reflHeaders f;
     flags.expandHeaders := flags.expandHeaders f;
     flags.authority := name;
     flags.userAgent := flags.userAgent f; flags.data := flags.data f;
     flags.format := flags.format f;
     flags.allowUnknownFields := flags.allowUnknownFields f;
     flags.connectTimeout := flags.connectTimeout f;
     flags.formatError := flags.formatError f;
     flags.keepaliveTime := flags.keepaliveTime f;
     flags.maxTime := flags.maxTime f; flags.maxMsgSz := flags.maxMsgSz f;
     flags.emitDefaults := flags.emitDefaults f;
     flags.protosetOut := flags.protosetOut f;
     flags.protoOut := flags.protoOut f;
     flags.msgTemplate := flags.msgTemplate f;
     flags.verbose := flags.verbose f;
     flags.veryVerbose := flags.veryVerbose f;
     flags.serverName := flags.serverName f;
     flags.reflection := flags.reflection f |}.

(** A step that does not panic. *)
Definition no_panic {A} (m : proc A) : Prop :=
  forall t msg t', m t <> (Panicked msg, t').

(** What the validation of lines 576-615 asks of the flags, given
    [usetls]. *)
Definition valid_args (fl : flags.t) (usetls : bool) : Prop :=
  (flags.connectTimeout fl <? 0)%float = false
  /\ (flags.keepaliveTime fl <? 0)%float = false
  /\ (flags.maxTime fl <? 0)%float = false
  /\ 0 <= flags.maxMsgSz fl
  /\ (flags.plaintext fl = false \/ flags.usealts fl = false)
  /\ (flags.insecure fl = true -> usetls = true)
  /\ (flags.cert fl <> "" -> usetls = true)
  /\ (flags.key fl <> "" -> usetls = true)
  /\ (flags.key fl = "" <-> flags.cert fl = "")
  /\ (flags.altsHandshakerServiceAddress fl <> "" ->
      flags.usealts fl = true)
  /\ (flags.altsTargetServiceAccounts fl <> [] -> flags.usealts fl = true)
  /\ (flags.format fl = "json" \/ flags.format fl = "text").

(** The connections of the [grpcurl.BlockingDial] calls among the events. *)
Definition dialed (t : list event) : list ClientConn :=
  omap (fun e => match e with BlockingDial cc => Some cc | _ => None end) t.

(** A step that writes what it writes after the events so far and dials
    nothing. *)
Definition quiet {A} (m : proc A) : Prop :=
  forall t, exists es o, m t = (o, t ++ es) /\ never_dialed es = true.

(** ** [main], lines 450-547: the positional arguments

    The run starts at [args := flags.Args()], after [-help] and [-version]
    (each prints and exits with 0).  The timing root made under [-vv] is
    left out, as in [dial]. *)

(** What the argument handling leaves in [main]'s variables. *)
Record arguments : Type := {
  arg_target : string;
  arg_parsedAddr : option parsedTarget;
  arg_list : bool;
  arg_describe : bool;
  arg_invoke : bool;
  arg_verbosityLevel : Z;
  arg_symbol : string;
  arg_reflection : flags.optionalBoolFlag
}.

Section Arguments.
Variable ext : Externals.
Variable url_Parse : string -> result url.URL.
Variable fl : flags.t.

Definition main_args (args : list string) : proc arguments :=
  match args with
  | [] => fail ext None "Too few arguments." []
  | args0 :: rest =>
      tp <- main_target ext url_Parse args0;;
      let target := fst tp in
      let parsedAddr := snd tp in
      let args :=
        if negb (String.eqb args0 "list")
           && negb (String.eqb args0 "describe")
        then rest else args in
      match args with
      | [] => fail ext None "Too few arguments." []
      | verb :: rest =>
          let list := String.eqb verb "list" in
          let describe := negb list && String.eqb verb "describe" in
          let invoke := negb list && negb describe in
          let args := if invoke then args else rest in
          let verbosityLevel := 0 in
          let verbosityLevel :=
            if flags.verbose fl then 1 else verbosityLevel in
          let verbosityLevel :=
            if flags.veryVerbose fl then 2 else verbosityLevel in
          sa <-
            (if invoke
             then match args with
                  | [] => fail ext None "Too few arguments." []
                  | symbol :: args => ret (symbol, args)
                  end
             else
               when (negb (String.eqb (flags.data fl) ""))
                 (warn "The -d argument is not used with 'list' or 'describe' verb.");;
               when (0 <? length (flags.rpcHeaders fl))%nat
                 (warn "The -rpc-header argument is not used with 'list' or 'describe' verb.");;
               match args with
               | symbol :: args => ret (symbol, args)
               | [] => ret ("", [])
               end);;
          let symbol := fst sa in
          let args := snd sa in
          when (0 <? length args)%nat
            (fail ext None "Too many arguments." []);;
          when (invoke && String.eqb target "")
            (fail ext None "No host:port specified." []);;
          when ((length (flags.protoset fl) =? 0)%nat
                && (length (flags.protoFiles fl) =? 0)%nat
                && String.eqb target "")
            (fail ext None "No host:port specified, no protoset specified, and no proto sources specified." []);;
          when ((0 <? length (flags.protoset fl))%nat
                && (0 <? length (flags.reflHeaders fl))%nat)
            (warn "The -reflect-header argument is not used when -protoset files are used.");;
          when ((0 <? length (flags.protoset fl))%nat
                && (0 <? length (flags.protoFiles fl))%nat)
            (fail ext None "Use either -protoset files or -proto files, but not both." []);;
          when ((0 <? length (flags.importPaths fl))%nat
                && (length (flags.protoFiles fl) =? 0)%nat)
            (warn "The -import-path argument is not used unless -proto files are used.");;
          when (negb (flags.val (flags.reflection fl))
                && (length (flags.protoset fl) =? 0)%nat
                && (length (flags.protoFiles fl) =? 0)%nat)
            (fail ext None "No protoset files or proto files specified and -use-reflection set to false." []);;
          let reflection :=
            if negb (flags.set (flags.reflection fl))
               && ((0 <? length (flags.protoset fl))%nat
                   || (0 <? length (flags.protoFiles fl))%nat)
            then {| flags.set := flags.set (flags.reflection fl);
                    flags.val := false |}
            else flags.reflection fl in
          ret {| arg_target := target;
                 arg_parsedAddr := parsedAddr;
                 arg_list := list;
                 arg_describe := describe;
                 arg_invoke := invoke;
                 arg_verbosityLevel := verbosityLevel;
                 arg_symbol := symbol;
                 arg_reflection := reflection |}
      end
  end.
End Arguments.

(** ** [main], lines 730-800: headers, descriptor sources, clean-up *)

(** A [*grpcreflect.Client], known by its connection and the headers of
    its requests. *)
Record refClient : Type := {
  ref_cc : ClientConn;
  ref_headers : list string
}.

Section Sources.
Context {Descriptor FieldDescriptor : Type}.

(** [descSource]: [nil], a source as one of the builders returned it, or
    the composite of two. *)
Inductive descSource : Type :=
| nilSource
| oneSource (src : DescriptorSource Descriptor FieldDescriptor)
| bothSources (cs : compositeSource Descriptor FieldDescriptor).

(** The functions of package [grpcurl] (and [grpcreflect]) used here:
    [reflectionSource client] stands for
    [DescriptorSourceFromServer(ctx, client)] on the client made by
    [NewClientAuto] with the metadata of its headers. *)
Record SourceExternals : Type := {
  grpcurl_ExpandHeaders : list string -> result (list string);
  grpcurl_DescriptorSourceFromProtoSets :
    list string -> result (DescriptorSource Descriptor FieldDescriptor);
  grpcurl_DescriptorSourceFromProtoFiles :
    list string -> list string
    -> result (DescriptorSource Descriptor FieldDescriptor);
  reflectionSource :
    refClient -> DescriptorSource Descriptor FieldDescriptor
}.

(** The headers after lines 730-749. *)
Record headers : Type := {
  hdr_addl : list string;
  hdr_rpc : list string;
  hdr_refl : list string
}.

(** [main]'s variables after line 782. *)
Record sources : Type := {
  src_cc : option ClientConn;
  src_descSource : descSource;
  src_refClient : option refClient;
  src_fileSource : option (DescriptorSource Descriptor FieldDescriptor)
}.

Variable ext : Externals.
Variable sext : SourceExternals.
Variable fl : flags.t.

Definition expand (what : string) (hs : list string) : proc (list string) :=
  match grpcurl_ExpandHeaders sext hs with
  | Err err => fail ext (Some err) what []
  | Ok hs' => ret hs'
  end.

Definition main_headers (parsedAddr : option parsedTarget) : proc headers :=
  hs <-
    (if flags.expandHeaders fl
     then
       addlHeaders <-
         expand "Failed to expand additional headers" (flags.addlHeaders fl);;
       rpcHeaders <-
         expand "Failed to expand rpc headers" (flags.rpcHeaders fl);;
       reflHeaders <-
         expand "Failed to expand reflection headers" (flags.reflHeaders fl);;
       ret {| hdr_addl := addlHeaders; hdr_rpc := rpcHeaders;
              hdr_refl := reflHeaders |}
     else ret {| hdr_addl := flags.addlHeaders fl;
                 hdr_rpc := flags.rpcHeaders fl;
                 hdr_refl := flags.reflHeaders fl |});;
  match parsedAddr with
  | Some parsedAddr =>
      if wasURL parsedAddr && negb (String.eqb (path parsedAddr) "")
         && negb (String.eqb (path parsedAddr) "/")
      then ret {| hdr_addl :=
                    hdr_addl hs ++ ["x-grpc-path: " +:+ path parsedAddr];
                  hdr_rpc := hdr_rpc hs; hdr_refl := hdr_refl hs |}
      else ret hs
  | None => ret hs
  end.

(** Lines 751-782; [reflection] is the flag as the argument handling left
    it. *)
Definition main_sources (reflection : flags.optionalBoolFlag)
    (parsedAddr : option parsedTarget) (target : string)
    (usetls forcePlaintext : bool) (hs : headers) : proc sources :=
  fileSource <-
    (if (0 <? length (flags.protoset fl))%nat
     then match grpcurl_DescriptorSourceFromProtoSets sext
                  (flags.protoset fl) with
          | Err err =>
              fail ext (Some err) "Failed to process proto descriptor sets." []
          | Ok src => ret (Some src)
          end
     else if (0 <? length (flags.protoFiles fl))%nat
     then match grpcurl_DescriptorSourceFromProtoFiles sext
                  (flags.importPaths fl) (flags.protoFiles fl) with
          | Err err =>
              fail ext (Some err) "Failed to process proto source files." []
          | Ok src => ret (Some src)
          end
     else ret None);;
  if flags.val reflection
  then
    cc <- dial ext fl parsedAddr target usetls forcePlaintext;;
    let refClient :=
      {| ref_cc := cc; ref_headers := hdr_addl hs ++ hdr_refl hs |} in
    let reflSource := reflectionSource sext refClient in
    ret {| src_cc := Some cc;
           src_descSource :=
             match fileSource with
             | Some fileSource =>
                 bothSources {| reflection := reflSource;
                                file := fileSource |}
             | None => oneSource reflSource
             end;
           src_refClient := Some refClient;
           src_fileSource := fileSource |}
  else
    ret {| src_cc := None;
           src_descSource :=
             match fileSource with
             | Some fileSource => oneSource fileSource
             | None => nilSource
             end;
           src_refClient := None;
           src_fileSource := fileSource |}.

(** From the command line to the descriptor source, in the order of
    [main]. *)
Definition main_setup (url_Parse : string -> result url.URL)
    (args : list string) : proc (arguments * sources) :=
  a <- main_args ext url_Parse fl args;;
  uf <- main_usetls ext fl (arg_parsedAddr a);;
  main_validate ext fl (fst uf);;
  hs <- main_headers (arg_parsedAddr a);;
  srcs <- main_sources (arg_reflection a) (arg_parsedAddr a) (arg_target a)
            (fst uf) (snd uf) hs;;
  ret (a, srcs).
End Sources.

(** *** The [reset] closure and the [exit] installed at line 796 *)

(** The two handles [reset] looks after. *)
Record handles : Type := {
  h_refClient : option refClient;
  h_cc : option ClientConn
}.

(** What [reset] does to the outside. *)
Inductive release : Type :=
| Reset (client : refClient)
| Close (cc : ClientConn).

Definition reset (h : handles) : handles * list release :=
  let '(refClient, rs) :=
    match h_refClient h with
    | Some client => (None, [Reset client])
    | None => (h_refClient h, [])
    end in
  let '(cc, rs) :=
    match h_cc h with
    | Some cc => (None, rs ++ [Close cc])
    | None => (h_cc h, rs)
    end in
  ({| h_refClient := refClient; h_cc := cc |}, rs).

(** [exit = func(code int) { reset(); os.Exit(code) }]: the releases made
    and the exit code. *)
Definition exit_reset (code : Z) (h : handles) : list release * Z :=
  (snd (reset h), code).

(** ** The flag types [multiString] and [optionalBoolFlag] *)

(** [strconv.ParseBool] and [strconv.FormatBool] of Go's standard library;
    [None] stands for the syntax error. *)
Module strconv.

Definition ParseBool (str : string) : option bool :=
  if existsb (String.eqb str) ["1"; "t"; "T"; "true"; "TRUE"; "True"]
  then Some true
  else if existsb (String.eqb str) ["0"; "f"; "F"; "false"; "FALSE"; "False"]
  then Some false
  else None.

Definition FormatBool (b : bool) : string := if b then "true" else "false".

End strconv.

(** [strings.Join]. *)
Fixpoint Join (elems : list string) (sep : string) : string :=
  match elems with
  | [] => ""
  | [x] => x
  | x :: rest => x +:+ sep +:+ Join rest sep
  end.

Definition multiString : Type := list string.

Definition multiString_String (s : multiString) : string := Join s ",".

Definition multiString_Set (s : multiString) (value : string)
  : multiString * option error :=
  (s ++ [value], None).

Section OptionalBool.
(** The error [strconv.ParseBool] returns for a text it does not accept. *)
Variable syntaxError : string -> string -> error.

Definition optionalBoolFlag_String (f : flags.optionalBoolFlag) : string :=
  if negb (flags.set f) then "unset" else strconv.FormatBool (flags.val f).

Definition optionalBoolFlag_Set (f : flags.optionalBoolFlag) (s : string)
  : flags.optionalBoolFlag * option error :=
  match strconv.ParseBool s with
  | None => (f, Some (syntaxError "ParseBool" s))
  | Some v => ({| flags.set := true; flags.val := v |}, None)
  end.

Definition optionalBoolFlag_IsBoolFlag (f : flags.optionalBoolFlag) : bool :=
  true.
End OptionalBool.

(** ** [prettify] *)

(** [strings.Split] with a one-byte separator. *)
Fixpoint Split (s : string) (sep : ascii) : list string :=
  match s with
  | EmptyString => [""]
  | String c rest =>
      if Ascii.eqb c sep then "" :: Split rest sep
      else match Split rest sep with
           | part :: parts => String c part :: parts
           | [] => [String c ""]
           end
  end.

(** The white space of [strings.TrimSpace] below U+0080: tab, line feed,
    vertical tab, form feed, carriage return and space. *)
Definition asciiSpace (c : ascii) : bool :=
  let n := nat_of_ascii c in
  ((9 <=? n)%nat && (n <=? 13)%nat) || (n =? 32)%nat.

Fixpoint TrimLeft (s : string) : string :=
  match s with
  | EmptyString => EmptyString
  | String c rest => if asciiSpace c then TrimLeft rest else s
  end.

(** [TrimRight] keeps a byte when it is not white space or when something
    is kept after it. *)
Fixpoint TrimRight (s : string) : string :=
  match s with
  | EmptyString => EmptyString
  | String c rest =>
      match TrimRight rest with
      | EmptyString => if asciiSpace c then EmptyString else String c ""
      | kept => String c kept
      end
  end.

(** [strings.TrimSpace] on text whose bytes are all below 0x80. *)
Definition TrimSpace (s : string) : string := TrimRight (TrimLeft s).

Fixpoint ascii_only (s : string) : bool :=
  match s with
  | EmptyString => true
  | String c rest => (nat_of_ascii c <? 128)%nat && ascii_only rest
  end.

Definition newline : ascii := ascii_of_nat 10.

(** One turn of the loop of [prettify] at index [i]: [parts] is the slice,
    written in place at [j]. *)
Definition prettify_step (st : list string * nat) (i : nat)
  : list string * nat :=
  let '(parts, j) := st in
  match parts !! i with
  | Some part =>
      let part := TrimSpace part in
      if String.eqb part "" then (parts, j)
      else (<[j := part]> parts, S j)
  | None => (parts, j)
  end.

Definition prettify (docString : string) : string :=
  let parts := Split docString newline in
  let '(parts, j) :=
    foldl prettify_step (parts, 0%nat) (seq 0 (length parts)) in
  Join (take j parts) nl.

(** ** [timingData] *)

(** The timing nodes live in a store; a [*timingData] is [None] for [nil]
    or the location of a node.  Times are nanoseconds. *)
Record timingData : Type := {
  Title : string;
  Start : Z;
  Value : Z;
  Parent : option nat;
  Sub : list nat
}.

Definition add_Sub (d : timingData) (child : nat) : timingData :=
  {| Title := Title d; Start := Start d; Value := Value d;
     Parent := Parent d; Sub := Sub d ++ [child] |}.


(** [d.Child(title)] at the time [now]: the new node's pointer and the
    store after. *)
Definition timingData_Child (d : option nat) (title : string) (now : Z)
    (st : gmap nat timingData) : option nat * gmap nat timingData :=
  match d with
  | None => (None, st)
  | Some l =>
      match st !! l with
      | Some node =>
          let child := fresh (dom st) in
          (Some child,
           <[l := add_Sub node child]>
             (<[child := {| Title := title; Start := now; Value := 0;
                            Parent := None; Sub := [] |}]> st))
      | None => (None, st)
      end
  end.


(** Vocabulary for the properties of [prettify] and of the timing store. *)

Fixpoint has_byte (c : ascii) (s : string) : bool :=
  match s with
  | EmptyString => false
  | String b rest => Ascii.eqb b c || has_byte c rest
  end.

(** The first byte, if any, is not white space. *)
Definition starts_clean (s : string) : Prop :=
  match s with
  | EmptyString => True
  | String c _ => asciiSpace c = false
  end.

(** The trimmed lines of a text that are not empty, in order. *)
Definition trimmed_lines (docString : string) : list string :=
  filter (fun part => part <> "") (TrimSpace <$> Split docString newline).

(** Every child a node lists is a node of the store. *)
Definition timing_closed (st : gmap nat timingData) : Prop :=
  forall l node c, st !! l = Some node -> c ∈ Sub node -> is_Some (st !! c).

(** ** Data for the further examples *)

Module MoreExamples.

(** A composite whose file source lists only a tag the reflection source
    has, and one whose file source lists only a new tag. *)
Definition covered : compositeSource string Examples.field :=
  {| reflection :=
       Examples.source [] [] (Ok [("refl_ext_5", 5); ("refl_ext_7", 7)]);
     file := Examples.source [] [] (Ok [("file_ext_7", 7)]) |}.

Definition disjoint : compositeSource string Examples.field :=
  {| reflection :=
       Examples.source [] [] (Ok [("refl_ext_5", 5); ("refl_ext_7", 7)]);
     file := Examples.source [] [] (Ok [("file_ext_9", 9)]) |}.

(** What [url.Parse] yields on "https://example.com/svc?x=1#top", and the
    same URL without its query and fragment. *)
Definition query_url : url.URL :=
  {| url.Scheme := "https"; url.Opaque := ""; url.Host := "example.com";
     url.Path := "/svc"; url.RawQuery := "x=1"; url.Fragment := "top" |}.

Definition bare_url : url.URL :=
  {| url.Scheme := "https"; url.Opaque := ""; url.Host := "example.com";
     url.Path := "/svc"; url.RawQuery := ""; url.Fragment := "" |}.

(** A platform with unix sockets. *)
Definition unix_ext : Externals :=
  {| Args0 := "grpcurl";
     version := "1.9.1";
     isUnixSocket := Some true;
     SSLKEYLOGFILE := "";
     os_OpenFile := fun name => Ok name;
     alts_DefaultClientOptions := alts_DefaultClientOptions Examples.ext;
     grpcurl_ClientTLSConfig := grpcurl_ClientTLSConfig Examples.ext;
     grpcurl_BlockingDial := fun _ => None;
     formatter := fun _ => ("", None) |}.

(** A platform where the client certificate cannot be loaded. *)
Definition no_tls_ext : Externals :=
  {| Args0 := "grpcurl";
     version := noVersion;
     isUnixSocket := None;
     SSLKEYLOGFILE := "";
     os_OpenFile := fun name => Ok name;
     alts_DefaultClientOptions := alts_DefaultClientOptions Examples.ext;
     grpcurl_ClientTLSConfig := fun _ _ _ _ =>
       Err (errorString "could not load client cert");
     grpcurl_BlockingDial := fun _ => None;
     formatter := fun _ => ("", None) |}.

(** The connection dialed to the socket path "/tmp/grpc.sock". *)
Definition unix_conn : ClientConn :=
  {| cc_timeout := Seconds 10; cc_target := "unix:///tmp/grpc.sock";
     cc_creds := None; cc_opts := [WithUserAgent "grpcurl/1.9.1"] |}.


(** [-alts]. *)
Definition alts_only : flags.t :=
  flags.make false false true "" "" "" "".

(** [-protoset svc.protoset -use-reflection -plaintext]. *)
Definition protoset_reflection : flags.t :=
  {| flags.help := false; flags.printVersion := false;
     flags.plaintext := true; flags.insecure := false; flags.cacert := "";
     flags.cert := ""; flags.key := ""; flags.usealts := false;
     flags.altsHandshakerServiceAddress := "";
     flags.altsTargetServiceAccounts := [];
     flags.protoset := ["svc.protoset"]; flags.protoFiles := [];
     flags.importPaths := []; flags.addlHeaders := [];
     flags.rpcHeaders := []; flags.reflHeaders := [];
     flags.expandHeaders := false; flags.authority := "";
     flags.userAgent := ""; flags.data := ""; flags.format := "json";
     flags.allowUnknownFields := false; flags.connectTimeout := 0%float;
     flags.formatError := false; flags.keepaliveTime := 0%float;
     flags.maxTime := 0%float; flags.maxMsgSz := 0;
     flags.emitDefaults := false; flags.protosetOut := "";
     flags.protoOut := ""; flags.msgTemplate := false;
     flags.verbose := false; flags.veryVerbose := false;
     flags.serverName := "";
     flags.reflection := {| flags.set := true; flags.val := true |} |}.

(** The builders of descriptor sources: every file loads. *)
Definition sext : @SourceExternals string Examples.field :=
  {| grpcurl_ExpandHeaders := fun hs => Ok hs;
     grpcurl_DescriptorSourceFromProtoSets := fun _ => Ok Examples.fileSource;
     grpcurl_DescriptorSourceFromProtoFiles :=
       fun _ _ => Ok Examples.fileSource;
     reflectionSource := fun _ => Examples.reflSource |}.

(** The same where no descriptor set can be read. *)
Definition failing_sext : @SourceExternals string Examples.field :=
  {| grpcurl_ExpandHeaders := fun hs => Ok hs;
     grpcurl_DescriptorSourceFromProtoSets :=
       fun _ => Err (errorString "could not load protoset file");
     grpcurl_DescriptorSourceFromProtoFiles :=
       fun _ _ => Ok Examples.fileSource;
     reflectionSource := fun _ => Examples.reflSource |}.

Definition no_headers : headers :=
  {| hdr_addl := []; hdr_rpc := []; hdr_refl := [] |}.

(** A timing store with one running node. *)
Definition root : timingData :=
  {| Title := "Timing Data"; Start := 1000; Value := 0; Parent := None;
     Sub := [] |}.

Definition timings : gmap nat timingData := {[ 0%nat := root ]}.

(** A comment as [protoc] keeps it. *)
Definition doc : string :=
  "  Says hello.  " +:+ nl +:+ nl +:+ "  Returns a greeting. " +:+ nl.

(** The error of [strconv.ParseBool]. *)
Definition syntaxError (fn text : string) : error :=
  errorString ("strconv." +:+ fn +:+ ": parsing " +:+ text
               +:+ ": invalid syntax").

End MoreExamples.

(** * Properties *)

(** ** The composite descriptor source *)

Section CompositeFacts.
Context {Descriptor FieldDescriptor : Type}.
Variable GetNumber : FieldDescriptor -> Z.

Abbreviation source := (DescriptorSource Descriptor FieldDescriptor).
Abbreviation composite := (compositeSource Descriptor FieldDescriptor).

(** After the first loop a tag reads [true] exactly when it was already
    [true] or some listed extension carries it. *)
Lemma foldl_tags_index (exts : list FieldDescriptor) (m : gmap Z bool) (k : Z) :
  map_index
    (foldl (fun tags e => <[GetNumber e := true]> tags) m exts) k = true
  <-> map_index m k = true \/ k ∈ GetNumber <$> exts.
Proof.
  revert m. induction exts as [|e exts IH]; intros m; simpl.
  - rewrite elem_of_nil. tauto.
  - rewrite IH, elem_of_cons. unfold map_index.
    destruct (decide (GetNumber e = k)) as [->|Hne].
    + rewrite lookup_insert_eq. simpl. tauto.
    + rewrite lookup_insert_ne by done. split.
      * intros [?|?]; auto.
      * intros [?|[?|?]]; auto; congruence.
Qed.

Lemma track_tags_index (exts : list FieldDescriptor) (k : Z) :
  map_index (track_tags GetNumber exts) k = true <-> k ∈ GetNumber <$> exts.
Proof.
  unfold track_tags. rewrite foldl_tags_index.
  unfold map_index. rewrite lookup_empty. simpl. split.
  - intros [?|?]; [discriminate | done].
  - auto.
Qed.

(** The second loop appends, in order, the file extensions with an
    untracked tag. *)
Lemma append_untracked_filter (tags : gmap Z bool)
    (exts fileExts : list FieldDescriptor) :
  append_untracked GetNumber tags exts fileExts
  = exts ++ filter (fun e => map_index tags (GetNumber e) = false) fileExts.
Proof.
  unfold append_untracked. revert exts.
  induction fileExts as [|e fileExts IH]; intros exts; simpl.
  - by rewrite app_nil_r.
  - rewrite IH, filter_cons.
    destruct (decide (map_index tags (GetNumber e) = false)) as [Htag|Htag].
    + rewrite Htag. simpl. by rewrite <- app_assoc.
    + destruct (map_index tags (GetNumber e)); [done | congruence].
Qed.

Lemma merge_is_filter (exts fileExts : list FieldDescriptor) :
  append_untracked GetNumber (track_tags GetNumber exts) exts fileExts
  = exts ++ filter (fun e => GetNumber e ∉ GetNumber <$> exts) fileExts.
Proof.
  rewrite append_untracked_filter. f_equal.
  apply list_filter_iff. intros e.
  rewrite <- track_tags_index.
  destruct (map_index (track_tags GetNumber exts) (GetNumber e)); split;
    congruence.
Qed.

(** C1: [AllExtensionsForType] of the composite source.  A failed reflection
    query gives the file source's result whatever it is; a failed file query
    after a successful reflection query gives the reflection extensions and
    no error; two successes give the reflection extensions followed by the
    file extensions whose tag number no reflection extension carries. *)
Theorem compositeSource_AllExtensionsForType_spec (cs : composite)
    (typeName : string) :
  compositeSource_AllExtensionsForType GetNumber cs typeName
  = match AllExtensionsForType (reflection cs) typeName with
    | Err _ => AllExtensionsForType (file cs) typeName
    | Ok exts =>
        match AllExtensionsForType (file cs) typeName with
        | Err _ => Ok exts
        | Ok fileExts =>
            Ok (exts ++ filter (fun e => GetNumber e ∉ GetNumber <$> exts)
                          fileExts)
        end
    end.
Proof.
  unfold compositeSource_AllExtensionsForType.
  destruct (AllExtensionsForType (reflection cs) typeName) as [exts|]; [|done].
  destruct (AllExtensionsForType (file cs) typeName) as [fileExts|]; [|done].
  by rewrite merge_is_filter.
Qed.

(** In a merged listing an extension whose tag number reflection produced is
    one of the reflection extensions, unless the file source lists it under
    a tag reflection did not produce: a tie goes to reflection. *)
Lemma merged_tie_from_reflection (exts fileExts : list FieldDescriptor)
    (e : FieldDescriptor) :
  e ∈ exts ++ filter (fun e => GetNumber e ∉ GetNumber <$> exts) fileExts ->
  GetNumber e ∈ GetNumber <$> exts ->
  e ∈ exts.
Proof.
  rewrite elem_of_app, list_elem_of_filter.
  intros [?|[Hno _]] Hin; [done | contradiction].
Qed.

(** C5: [FindSymbol] of the composite source.  A descriptor found by
    reflection is returned; on any reflection error, whatever the error, the
    result is the file source's, descriptor or error alike. *)
Theorem compositeSource_FindSymbol_spec (cs : composite) (name : string) :
  (forall d, FindSymbol (reflection cs) name = Ok d ->
             compositeSource_FindSymbol cs name = Ok d)
  /\ (forall err, FindSymbol (reflection cs) name = Err err ->
        compositeSource_FindSymbol cs name = FindSymbol (file cs) name)
  /\ (forall err d, FindSymbol (reflection cs) name = Err err ->
        FindSymbol (file cs) name = Ok d ->
        compositeSource_FindSymbol cs name = Ok d).
Proof.
  unfold compositeSource_FindSymbol. repeat split.
  - intros d ->. reflexivity.
  - intros err ->. reflexivity.
  - intros err d -> Hfile. exact Hfile.
Qed.

(** C9: [ListServices] of the composite source is the reflection source's
    listing, result or error; it is the same whatever the file source is,
    and a listed service is one reflection listed. *)
Theorem compositeSource_ListServices_spec (refl fileSrc : source) :
  let cs := {| reflection := refl; file := fileSrc |} in
  compositeSource_ListServices cs = ListServices refl
  /\ (forall otherFile : source,
        compositeSource_ListServices
          {| reflection := refl; file := otherFile |}
        = compositeSource_ListServices cs)
  /\ (forall svcs svc,
        compositeSource_ListServices cs = Ok svcs -> svc ∈ svcs ->
        exists listed, ListServices refl = Ok listed /\ svc ∈ listed).
Proof.
  simpl. unfold compositeSource_ListServices. simpl. repeat split.
  intros svcs svc Hsvcs Hin. exists svcs. auto.
Qed.
End CompositeFacts.

(** The merge on reflection tags {5} and file tags {5, 7}. *)
Example AllExtensionsForType_5_7 :
  compositeSource_AllExtensionsForType Examples.number Examples.both "t"
  = Ok [("refl_ext_5", 5); ("file_ext_7", 7)].
Proof. reflexivity. Qed.

(** A symbol reflection does not find and the file source does. *)
Example FindSymbol_fallback :
  FindSymbol Examples.reflSource "file.Message"
  = Err (errorString "Symbol not found: file.Message")
  /\ compositeSource_FindSymbol Examples.both "file.Message"
     = Ok "message file.Message".
Proof. split; reflexivity. Qed.

(** A service only the file source knows is not listed. *)
Example ListServices_live_only :
  compositeSource_ListServices Examples.both = Ok ["live.Service"].
Proof. reflexivity. Qed.

(** ** Target resolution *)

Lemma eqb_string_neq (a b : string) : a <> b -> String.eqb a b = false.
Proof. intros Hne. by apply String.eqb_neq. Qed.

(** A target with one of the two special prefixes reads, to [net/url]'s
    scheme scanner, as scheme [unix] or [xds]: no target that the prefix
    test returns early has scheme [http] or [https]. *)
Lemma special_prefix_getScheme (target : string) :
  (strings.HasPrefix target "unix://" = true ->
   exists rest, url.getScheme target = Some ("unix", rest))
  /\ (strings.HasPrefix target "xds:///" = true ->
      exists rest, url.getScheme target = Some ("xds", rest)).
Proof.
  unfold strings.HasPrefix. split; intros Hp.
  - apply String.prefix_correct in Hp. simpl in Hp.
    do 5 (destruct target as [|? target]; [discriminate|]).
    simpl in Hp. injection Hp as -> -> -> -> -> _.
    eexists. reflexivity.
  - apply String.prefix_correct in Hp. simpl in Hp.
    do 4 (destruct target as [|? target]; [discriminate|]).
    simpl in Hp. injection Hp as -> -> -> -> _.
    eexists. reflexivity.
Qed.

Section TargetFacts.
Variable url_Parse : string -> result url.URL.

(** Every path through [parseTarget] other than the http/https one returns
    the target untouched. *)
Lemma parseTarget_cases (target : string) :
  (exists sch, parseTarget url_Parse target = Ok (passthrough target sch))
  \/ (exists u pt,
        url_Parse target = Ok u
        /\ (url.Scheme u = "http" \/ url.Scheme u = "https")
        /\ parseTarget url_Parse target = Ok pt
        /\ wasURL pt = true).
Proof.
  unfold parseTarget.
  destruct (strings.HasPrefix target "unix://"
            || strings.HasPrefix target "xds:///"); [left; eauto|].
  destruct (url_Parse target) as [u|]; [|left; eauto].
  destruct (String.eqb_spec (url.Scheme u) "") as [->|Hempty];
    [left; eauto|].
  destruct (String.eqb_spec (url.Scheme u) "http") as [Hhttp|Hhttp].
  - right. exists u. rewrite Hhttp. simpl. eauto 10.
  - destruct (String.eqb_spec (url.Scheme u) "https") as [Hhttps|Hhttps].
    + right. exists u. rewrite Hhttps. simpl. eauto 10.
    + left. cbn [negb andb orb].
      destruct (_ && _); eauto.
Qed.

(** C3: a target handed to [url.Parse] (one without the [unix://] or
    [xds:///] prefix, which are returned before any parse) whose parse has
    scheme http or https resolves to the URL's host name and port, the port
    defaulting to 80 for http and 443 for https, the address being
    host:port, [useTLS] set exactly for https, the URL's path kept and
    [wasURL] set. *)
Theorem parseTarget_http_https (target : string) (u : url.URL) :
  strings.HasPrefix target "unix://" = false ->
  strings.HasPrefix target "xds:///" = false ->
  url_Parse target = Ok u ->
  url.Scheme u = "http" \/ url.Scheme u = "https" ->
  exists pt,
    parseTarget url_Parse target = Ok pt
    /\ host pt = url.Hostname u
    /\ port pt = (if String.eqb (url.Port u) ""
                  then (if String.eqb (url.Scheme u) "https"
                        then "443" else "80")
                  else url.Port u)
    /\ address pt = host pt +:+ ":" +:+ port pt
    /\ (useTLS pt = true <-> url.Scheme u = "https")
    /\ path pt = url.Path u
    /\ wasURL pt = true.
Proof.
  intros Hunix Hxds Hparse Hscheme.
  unfold parseTarget. rewrite Hunix, Hxds, Hparse. simpl.
  destruct Hscheme as [Hs | Hs]; rewrite Hs; simpl;
    eexists; (split; [reflexivity|]); simpl; repeat split; done.
Qed.

(** C6: [parseTarget] returns a target and no error on every input; an
    input whose parse is not an http or https URL, or that carries the
    [unix://] or [xds:///] prefix, comes back as it was given, with
    [wasURL] and [useTLS] unset, and so does "myhost:1234" when its parse
    reads [myhost] as a scheme with no host, path, query or fragment. *)
Theorem parseTarget_never_fails (target : string) :
  (exists pt, parseTarget url_Parse target = Ok pt)
  /\ ((forall u, url_Parse target = Ok u ->
         url.Scheme u <> "http" /\ url.Scheme u <> "https") ->
      exists pt, parseTarget url_Parse target = Ok pt
                 /\ address pt = target
                 /\ wasURL pt = false /\ useTLS pt = false)
  /\ (strings.HasPrefix target "unix://" = true
      \/ strings.HasPrefix target "xds:///" = true ->
      parseTarget url_Parse target = Ok (passthrough target ""))
  /\ (url_Parse "myhost:1234" = Ok Examples.misread ->
      exists pt, parseTarget url_Parse "myhost:1234" = Ok pt
                 /\ address pt = "myhost:1234"
                 /\ wasURL pt = false /\ useTLS pt = false).
Proof.
  repeat split.
  - destruct (parseTarget_cases target) as [[sch H]|(u & pt & _ & _ & H & _)];
      eauto.
  - intros Hnot.
    destruct (parseTarget_cases target)
      as [[sch H]|(u & pt & Hparse & Hscheme & _)].
    + eexists. split; [exact H|]. auto.
    + destruct (Hnot u Hparse). tauto.
  - intros Hprefix. unfold parseTarget.
    destruct Hprefix as [-> | ->]; [reflexivity|].
    by rewrite orb_true_r.
  - intros Hparse. unfold parseTarget. rewrite Hparse. simpl. eauto.
Qed.

(** C8, at the target "https://[::1]:8443/svc": the brackets that
    [Hostname] strips are not put back, and the address has the host's
    colons run into the port's. *)
Theorem parseTarget_ipv6_address :
  url_Parse "https://[::1]:8443/svc" = Ok Examples.ipv6_url ->
  exists pt, parseTarget url_Parse "https://[::1]:8443/svc" = Ok pt
             /\ host pt = "::1" /\ port pt = "8443"
             /\ address pt = "::1:8443"
             /\ address pt <> "[::1]:8443".
Proof.
  intros Hparse. unfold parseTarget. rewrite Hparse. simpl.
  eexists. repeat split. discriminate.
Qed.
End TargetFacts.

Lemma parseTarget_http_https_witness :
  exists pt,
    parseTarget url_ParseSimple "https://example.com/svc" = Ok pt
    /\ host pt = "example.com"
    /\ port pt = "443"
    /\ address pt = host pt +:+ ":" +:+ port pt
    /\ (useTLS pt = true <-> "https" = "https")
    /\ path pt = "/svc"
    /\ wasURL pt = true.
Proof.
  exact (parseTarget_http_https url_ParseSimple "https://example.com/svc"
           {| url.Scheme := "https"; url.Opaque := "";
              url.Host := "example.com"; url.Path := "/svc";
              url.RawQuery := ""; url.Fragment := "" |}
           eq_refl eq_refl eq_refl (or_intror eq_refl)).
Defined.

Lemma parseTarget_ipv6_address_witness :
  url_ParseSimple "https://[::1]:8443/svc" = Ok Examples.ipv6_url
  /\ exists pt, parseTarget url_ParseSimple "https://[::1]:8443/svc" = Ok pt
                /\ host pt = "::1" /\ port pt = "8443"
                /\ address pt = "::1:8443"
                /\ address pt <> "[::1]:8443".
Proof.
  split; [reflexivity|].
  exact (parseTarget_ipv6_address url_ParseSimple eq_refl).
Defined.

(** The targets of the specification, run on the stand-in parser. *)
Example parseTarget_https_svc :
  parseTarget url_ParseSimple "https://example.com/svc"
  = Ok {| address := "example.com:443"; scheme := "https";
          host := "example.com"; port := "443"; path := "/svc";
          useTLS := true; wasURL := true |}.
Proof. reflexivity. Qed.

Example parseTarget_myhost :
  parseTarget url_ParseSimple "myhost:1234"
  = Ok (passthrough "myhost:1234" "").
Proof. reflexivity. Qed.

Example parseTarget_http_port :
  parseTarget url_ParseSimple "http://example.com:8080"
  = Ok {| address := "example.com:8080"; scheme := "http";
          host := "example.com"; port := "8080"; path := "";
          useTLS := false; wasURL := true |}.
Proof. reflexivity. Qed.

Example parseTarget_unix :
  parseTarget url_ParseSimple "unix:///tmp/sock"
  = Ok (passthrough "unix:///tmp/sock" "").
Proof. reflexivity. Qed.

Example parseTarget_ipv6_default_port :
  parseTarget url_ParseSimple "http://[2001:db8::1]/svc"
  = Ok {| address := "2001:db8::1:80"; scheme := "http";
          host := "2001:db8::1"; port := "80"; path := "/svc";
          useTLS := false; wasURL := true |}.
Proof. reflexivity. Qed.

(** ** Processes *)

Lemma never_dialed_app (t es : list event) :
  never_dialed (t ++ es) = never_dialed t && never_dialed es.
Proof. apply forallb_app. Qed.

Lemma bind_ret_l {A B} (a : A) (k : A -> proc B) : bind (ret a) k = k a.
Proof. reflexivity. Qed.

Section ProcessFacts.
Variable ext : Externals.

Lemma fail_usage {A} (msg : string) (args : list value) (t : list event) :
  @fail ext A None msg args t
  = (Exited 2,
     t ++ [Fprintf Stderr msg args; Fprintln Stderr;
           Fprintf Stderr ("Try '%s -help' for more details." +:+ nl)
             [VString (Args0 ext)]]).
Proof.
  unfold fail, bind, emit, exit. by rewrite <- !app_assoc.
Qed.

Lemma fail_error {A} (err : error) (msg : string) (args : list value)
    (t : list event) :
  @fail ext A (Some err) msg args t
  = (Exited 1,
     t ++ [Fprintf Stderr (msg +:+ ": %v") (args ++ [VError err]);
           Fprintln Stderr]).
Proof.
  unfold fail, bind, emit, exit. by rewrite <- !app_assoc.
Qed.

Lemma exits_usage_fail {A} (msg : string) (args : list value) :
  exits_usage (@fail ext A None msg args).
Proof. intros t. rewrite fail_usage. eexists. split; [|reflexivity]. done. Qed.

Lemma exits_usage_bind_l {A B} (m : proc A) (k : A -> proc B) :
  exits_usage m -> exits_usage (bind m k).
Proof.
  intros Hm t. destruct (Hm t) as (es & Hes & Heq).
  exists es. split; [done|]. unfold bind. by rewrite Heq.
Qed.

Lemma exits_usage_bind_r {A B} (m : proc A) (k : A -> proc B) :
  checks_usage m -> (forall a, exits_usage (k a)) -> exits_usage (bind m k).
Proof.
  intros Hm Hk t. destruct (Hm t) as (es & Hes & [[a Heq]|Heq]).
  - destruct (Hk a (t ++ es)) as (es' & Hes' & Heq').
    exists (es ++ es'). split.
    + rewrite never_dialed_app, Hes, Hes'. done.
    + unfold bind. rewrite Heq, Heq'. by rewrite app_assoc.
  - exists es. split; [done|]. unfold bind. by rewrite Heq.
Qed.

Lemma checks_usage_ret {A} (a : A) : checks_usage (ret a).
Proof.
  intros t. exists []. split; [done|]. left. exists a.
  unfold ret. by rewrite app_nil_r.
Qed.

Lemma checks_usage_exits {A} (m : proc A) : exits_usage m -> checks_usage m.
Proof.
  intros Hm t. destruct (Hm t) as (es & Hes & Heq). exists es. auto.
Qed.

Lemma checks_usage_when (b : bool) (m : proc unit) :
  checks_usage m -> checks_usage (when b m).
Proof. destruct b; simpl; [done | intros _; apply checks_usage_ret]. Qed.

Lemma checks_usage_when_fail (b : bool) (msg : string) (args : list value) :
  checks_usage (when b (fail ext None msg args)).
Proof. apply checks_usage_when, checks_usage_exits, exits_usage_fail. Qed.

Lemma checks_usage_warn (msg : string) : checks_usage (warn msg).
Proof.
  intros t. eexists. split; [|left; exists tt; reflexivity]. done.
Qed.

Lemma checks_usage_bind {A B} (m : proc A) (k : A -> proc B) :
  checks_usage m -> (forall a, checks_usage (k a)) -> checks_usage (bind m k).
Proof.
  intros Hm Hk t. destruct (Hm t) as (es & Hes & [[a Heq]|Heq]).
  - destruct (Hk a (t ++ es)) as (es' & Hes' & Heq').
    exists (es ++ es'). split.
    + rewrite never_dialed_app, Hes, Hes'. done.
    + unfold bind. rewrite Heq, app_assoc. exact Heq'.
  - exists es. split; [done|]. right. unfold bind. by rewrite Heq.
Qed.

Lemma exits_usage_when_true {A} (b : bool) (m : proc unit) (k : unit -> proc A) :
  b = true -> exits_usage m -> exits_usage (bind (when b m) k).
Proof. intros -> Hm. by apply exits_usage_bind_l. Qed.
End ProcessFacts.

Create HintDb proc.
#[local] Hint Resolve checks_usage_ret checks_usage_when_fail
  checks_usage_warn exits_usage_fail : proc.

(** One check of a validation sequence passes or exits; go on with the
    rest. *)
Ltac next_check :=
  apply exits_usage_bind_r; [auto with proc | intros _].

(** The check at hand fires. *)
Ltac this_check :=
  apply exits_usage_when_true; [|apply exits_usage_fail].

Section TransportFacts.
Variable ext : Externals.
Variable fl : flags.t.

(** Every step of the validation passes or exits with the usage code. *)
Lemma main_validate_checks (usetls : bool) :
  checks_usage (main_validate ext fl usetls).
Proof.
  unfold main_validate.
  repeat (apply checks_usage_bind; [auto with proc | intros _]).
  apply checks_usage_when, checks_usage_warn.
Qed.

(** With TLS off, [-insecure], [-cert] and [-key] each stop the
    validation. *)
Lemma main_validate_tls_only :
  flags.insecure fl = true \/ flags.cert fl <> "" \/ flags.key fl <> "" ->
  exits_usage (main_validate ext fl false).
Proof.
  intros Hopt. unfold main_validate. do 5 next_check.
  destruct Hopt as [Hinsecure|[Hcert|Hkey]].
  - this_check. by rewrite Hinsecure.
  - next_check. this_check. by rewrite eqb_string_neq.
  - do 2 next_check. this_check. by rewrite eqb_string_neq.
Qed.
End TransportFacts.

(** ** Transport selection *)

Section SelectionFacts.
Variable ext : Externals.
Variable fl : flags.t.

(** The selection step either yields its two booleans and writes nothing,
    or exits with the usage code. *)
Lemma main_usetls_cases (parsedAddr : option parsedTarget) :
  (exists usetls forcePlaintext,
      forall t, main_usetls ext fl parsedAddr t
                = (Ret (usetls, forcePlaintext), t))
  \/ exits_usage (main_usetls ext fl parsedAddr).
Proof.
  unfold main_usetls.
  destruct parsedAddr as [pa|]; [|left; eauto].
  destruct (wasURL pa); [|left; eauto].
  destruct (useTLS pa && (flags.plaintext fl || flags.usealts fl)).
  - right. apply exits_usage_bind_l, exits_usage_fail.
  - left. unfold when, bind, ret.
    destruct (negb (useTLS pa) && negb (flags.plaintext fl)
              && negb (flags.usealts fl)); [eauto|].
    destruct (useTLS pa && negb (flags.plaintext fl)
              && negb (flags.usealts fl)); eauto.
Qed.

Lemma main_usetls_run (parsedAddr : option parsedTarget)
    (uf : bool * bool) (es : list event) :
  run (main_usetls ext fl parsedAddr) = (Ret uf, es) ->
  forall t, main_usetls ext fl parsedAddr t = (Ret uf, t).
Proof.
  unfold run. intros Hrun.
  destruct (main_usetls_cases parsedAddr) as [(u & f & Hret)|Hexit].
  - intros t. rewrite Hret in *. congruence.
  - destruct (Hexit []) as (es' & _ & Heq). congruence.
Qed.

(** C4: for a target resolved as a URL, an https scheme with [-plaintext]
    or [-alts] ends the run with a usage error and nothing dialed, whereas
    an http scheme with neither flag selects plaintext by itself: the
    selection writes nothing, turns TLS off and forces plaintext, and the
    dial that follows carries no transport credentials. *)
Theorem url_scheme_selects_transport (pa : parsedTarget) (target : string) :
  wasURL pa = true ->
  (useTLS pa = true ->
   flags.plaintext fl = true \/ flags.usealts fl = true ->
   exits_usage (main_dial ext fl (Some pa) target))
  /\ (useTLS pa = false ->
      flags.plaintext fl = false -> flags.usealts fl = false ->
      (forall t, main_usetls ext fl (Some pa) t = (Ret (false, true), t))
      /\ (forall t, exists cc o rest,
            dial ext fl (Some pa) target false true t
            = (o, t ++ BlockingDial cc :: rest)
            /\ cc_creds cc = None)).
Proof.
  intros Hurl. split.
  - intros Htls Hflag. unfold main_dial, main_usetls.
    rewrite Hurl, Htls.
    apply exits_usage_bind_l. this_check.
    destruct Hflag as [-> | ->]; simpl; [done|].
    by destruct (flags.plaintext fl).
  - intros Htls Hplain Halts. split.
    + intros t. unfold main_usetls. by rewrite Hurl, Htls, Hplain, Halts.
    + intros t. unfold dial, bind, ret, emit.
      destruct (grpcurl_BlockingDial ext _) as [err|] eqn:Hdial.
      * rewrite fail_error, <- app_assoc.
        eexists _, _, _. split; [reflexivity|]. reflexivity.
      * eexists _, _, _. split; [reflexivity|]. reflexivity.
Qed.

(** With TLS off nothing reads [-servername]. *)
Lemma main_dial_ignores_serverName (parsedAddr : option parsedTarget)
    (target name : string) (fp : bool) (es : list event) :
  run (main_usetls ext fl parsedAddr) = (Ret (false, fp), es) ->
  forall t,
    main_dial ext (flags.with_serverName name fl) parsedAddr target t
    = main_dial ext fl parsedAddr target t.
Proof.
  intros Hrun t. pose proof (main_usetls_run _ _ _ Hrun) as Hret.
  unfold main_dial, bind.
  change (main_usetls ext (flags.with_serverName name fl) parsedAddr t)
    with (main_usetls ext fl parsedAddr t).
  rewrite Hret. cbn [fst snd].
  change (main_validate ext (flags.with_serverName name fl) false)
    with (main_validate ext fl false).
  destruct (main_validate ext fl false t) as [[[]| |] t']; reflexivity.
Qed.

(** C7, as the code has it: with TLS off, [-insecure], a client
    certificate and a client key each end the run with a usage error and
    nothing dialed; [-servername] does not: the run is the same with and
    without it. *)
Theorem tls_only_options_without_tls (parsedAddr : option parsedTarget)
    (target : string) (fp : bool) (es : list event) :
  run (main_usetls ext fl parsedAddr) = (Ret (false, fp), es) ->
  (flags.insecure fl = true \/ flags.cert fl <> "" \/ flags.key fl <> "" ->
   exits_usage (main_dial ext fl parsedAddr target))
  /\ (forall name t,
        main_dial ext (flags.with_serverName name fl) parsedAddr target t
        = main_dial ext fl parsedAddr target t).
Proof.
  intros Hrun. split.
  - intros Hopt t. pose proof (main_usetls_run _ _ _ Hrun) as Hret.
    destruct (main_validate_tls_only ext fl Hopt t) as (es' & Hes' & Heq).
    exists es'. split; [done|].
    unfold main_dial, bind. rewrite Hret. cbn [fst snd]. by rewrite Heq.
  - intros name t. by eapply main_dial_ignores_serverName.
Qed.
End SelectionFacts.

(** ** The TLS server name *)

Lemma append_colon_neq (s p : string) : s <> s +:+ ":" +:+ p.
Proof.
  induction s as [|c s IH]; simpl; [discriminate|].
  intros Heq. injection Heq as Heq. by apply IH.
Qed.

Section ServerNameFacts.
Variable ext : Externals.
Variable url_Parse : string -> result url.URL.
Variable fl : flags.t.

(** A target resolved as a URL has an address other than its host. *)
Lemma parseTarget_host_not_address (target : string) (pa : parsedTarget) :
  parseTarget url_Parse target = Ok pa -> wasURL pa = true ->
  host pa <> address pa.
Proof.
  unfold parseTarget. intros Hpt Hurl.
  destruct (url_Parse target) as [u|];
    repeat match type of Hpt with
           | context [if ?b then _ else _] => destruct b
           end;
    injection Hpt as <-; simpl in *; try discriminate;
    apply append_colon_neq.
Qed.

(** TLS is selected only with neither [-plaintext] nor [-alts]. *)
Lemma main_usetls_tls (parsedAddr : option parsedTarget) (fp : bool)
    (es : list event) :
  run (main_usetls ext fl parsedAddr) = (Ret (true, fp), es) ->
  fp = false /\ flags.plaintext fl = false /\ flags.usealts fl = false.
Proof.
  unfold run, main_usetls, when, bind, ret.
  destruct parsedAddr as [pa|]; [destruct (wasURL pa), (useTLS pa)|];
    destruct (flags.plaintext fl), (flags.usealts fl); simpl;
    rewrite ?fail_usage; intros [=]; subst; auto.
Qed.

(** The TLS branch of [dial], when the configuration is built, the key log
    (if any) opens and the two name overrides do not disagree: it dials
    nothing itself and yields credentials named after the target's host. *)
Lemma dial_tls_server_name (pa : parsedTarget) (opts : list DialOption)
    (conf : tls_Config) :
  wasURL pa = true ->
  path pa <> "" -> path pa <> "/" ->
  grpcurl_ClientTLSConfig ext (flags.insecure fl) (flags.cacert fl)
    (flags.cert fl) (flags.key fl) = Ok conf ->
  (SSLKEYLOGFILE ext = ""
   \/ exists w, os_OpenFile ext (SSLKEYLOGFILE ext) = Ok w) ->
  (flags.serverName fl = "" \/ flags.authority fl = ""
   \/ flags.serverName fl = flags.authority fl) ->
  exists tlsConf opts' pre,
    ServerName tlsConf = host pa
    /\ forall t,
         dial_tls ext fl (Some pa) opts t
         = (Ret (Some (credentials_NewTLS tlsConf), opts'), t ++ pre).
Proof.
  intros Hurl Hpath Hroot Hconf Hkeylog Hnames.
  unfold dial_tls. rewrite Hconf, Hurl.
  rewrite (eqb_string_neq _ _ Hpath), (eqb_string_neq _ _ Hroot).
  cbn [negb andb]. rewrite bind_ret_l.
  assert (exists tlsConf,
    ServerName tlsConf = host pa
    /\ (if negb (String.eqb (SSLKEYLOGFILE ext) "")
        then match os_OpenFile ext (SSLKEYLOGFILE ext) with
             | Err err =>
                 fail ext (Some err) "Could not open SSLKEYLOGFILE %s"
                   [VString (SSLKEYLOGFILE ext)]
             | Ok w =>
                 ret (set_KeyLogWriter (set_ServerName conf (host pa)) w)
             end
        else ret (set_ServerName conf (host pa)))
       = ret tlsConf) as (tlsConf & Hname & ->).
  { destruct Hkeylog as [Hnone|[w Hw]].
    - rewrite Hnone. simpl. eexists. split; [|reflexivity]. reflexivity.
    - rewrite Hw. destruct (negb _); eexists; (split; [|reflexivity]);
        reflexivity. }
  exists tlsConf.
  destruct Hnames as [Hn|[Hn|Hn]].
  - rewrite Hn. simpl. eexists _, []. split; [done|]. intros t.
    unfold bind, ret. by rewrite app_nil_r.
  - rewrite Hn, andb_false_r. eexists _, []. split; [done|]. intros t.
    unfold bind, ret. by rewrite app_nil_r.
  - rewrite Hn, String.eqb_refl.
    destruct (String.eqb (flags.authority fl) ""); simpl.
    + eexists _, []. split; [done|]. intros t.
      unfold bind, ret. by rewrite app_nil_r.
    + eexists _, _. split; [done|]. intros t. reflexivity.
Qed.

(** C10: with TLS selected and a target resolved as a URL whose path is
    neither empty nor "/", the dial carries TLS credentials whose server
    name is the target's host, which is not the host:port address dialed;
    this holds with [-servername] and [-authority] both absent (and with
    one of them, or both alike). *)
Theorem tls_server_name_is_url_host (args0 : string) (pa : parsedTarget)
    (fp : bool) (es : list event) (conf : tls_Config) (t : list event) :
  parseTarget url_Parse args0 = Ok pa ->
  wasURL pa = true ->
  path pa <> "" -> path pa <> "/" ->
  run (main_usetls ext fl (Some pa)) = (Ret (true, fp), es) ->
  grpcurl_ClientTLSConfig ext (flags.insecure fl) (flags.cacert fl)
    (flags.cert fl) (flags.key fl) = Ok conf ->
  (SSLKEYLOGFILE ext = ""
   \/ exists w, os_OpenFile ext (SSLKEYLOGFILE ext) = Ok w) ->
  (flags.serverName fl = "" \/ flags.authority fl = ""
   \/ flags.serverName fl = flags.authority fl) ->
  exists cc tlsConf o rest,
    dial ext fl (Some pa) (address pa) true fp t = (o, t ++ rest)
    /\ BlockingDial cc ∈ rest
    /\ cc_creds cc = Some (credentials_NewTLS tlsConf)
    /\ ServerName tlsConf = host pa
    /\ ServerName tlsConf <> address pa.
Proof.
  intros Hpt Hurl Hpath Hroot Hsel Hconf Hkeylog Hnames.
  pose proof (parseTarget_host_not_address _ _ Hpt Hurl) as Hne.
  destruct (main_usetls_tls _ _ _ Hsel) as (-> & _ & Halts).
  unfold dial. rewrite Halts. cbv beta iota zeta.
  match goal with
  | |- context [dial_tls ext fl (Some pa) ?opts] =>
      destruct (dial_tls_server_name pa opts conf Hurl Hpath Hroot Hconf
                  Hkeylog Hnames) as (tlsConf & opts' & pre & Hname & Htls)
  end.
  unfold bind at 1. rewrite Htls. cbn [fst snd].
  unfold bind, emit.
  destruct (grpcurl_BlockingDial ext _) as [err|];
    rewrite ?fail_error, <- ?app_assoc;
    eexists _, tlsConf, _, _;
    (split; [reflexivity|]);
    (split; [rewrite elem_of_app; right; apply list_elem_of_here|]);
    (split; [reflexivity|]);
    rewrite Hname; auto.
Qed.
End ServerNameFacts.

(** ** Exit codes *)


Section ExitFacts.
Variable ext : Externals.
Variable fl : flags.t.



End ExitFacts.

(** ** The theorems at concrete inputs *)


(** "https://example.com/svc" with [-plaintext] is refused; for
    "http://example.com:8080" with no flag the selection is plaintext. *)
Lemma url_scheme_selects_transport_witness :
  exits_usage (main_dial Examples.ext Examples.plaintext_only
                 (Some Examples.https_svc) "example.com:443")
  /\ (forall t,
        main_usetls Examples.ext flags.defaults (Some Examples.http_8080) t
        = (Ret (false, true), t)).
Proof.
  split.
  - apply (url_scheme_selects_transport Examples.ext Examples.plaintext_only
             Examples.https_svc "example.com:443" eq_refl);
      [reflexivity | left; reflexivity].
  - apply (url_scheme_selects_transport Examples.ext flags.defaults
             Examples.http_8080 "example.com:8080" eq_refl); reflexivity.
Defined.

(** [-plaintext -insecure] is refused. *)
Lemma tls_only_options_without_tls_witness :
  exits_usage (main_dial Examples.ext Examples.plaintext_insecure None
                 "localhost:8080").
Proof.
  apply (tls_only_options_without_tls Examples.ext
           Examples.plaintext_insecure None "localhost:8080" true []
           eq_refl).
  left. reflexivity.
Defined.

(** C7 as stated fails on [-plaintext -servername override.example]: TLS is
    off, the server-name override is given, and the run reaches the dial,
    with no credentials, and returns the connection. *)
Lemma servername_accepted_without_tls :
  flags.serverName Examples.plaintext_servername = "override.example"
  /\ run (main_usetls Examples.ext Examples.plaintext_servername None)
     = (Ret (false, true), [])
  /\ run (main_connect Examples.ext url_ParseSimple
            Examples.plaintext_servername "localhost:8080")
     = (Ret (Examples.plain_conn "localhost:8080"),
        [BlockingDial (Examples.plain_conn "localhost:8080")])
  /\ cc_creds (Examples.plain_conn "localhost:8080") = None.
Proof. repeat split. Qed.

(** "https://example.com/svc" over TLS: the server name is "example.com". *)
Lemma tls_server_name_is_url_host_witness :
  exists cc tlsConf o rest,
    dial Examples.ext flags.defaults (Some Examples.https_svc)
      "example.com:443" true false [] = (o, [] ++ rest)
    /\ BlockingDial cc ∈ rest
    /\ cc_creds cc = Some (credentials_NewTLS tlsConf)
    /\ ServerName tlsConf = "example.com"
    /\ ServerName tlsConf <> "example.com:443".
Proof.
  apply (tls_server_name_is_url_host Examples.ext url_ParseSimple
           flags.defaults "https://example.com/svc" Examples.https_svc
           false []
           {| InsecureSkipVerify := false; RootCAs := "";
              Certificates := ("", ""); ServerName := "";
              KeyLogWriter := None |} []).
  - reflexivity.
  - reflexivity.
  - discriminate.
  - discriminate.
  - reflexivity.
  - reflexivity.
  - left. reflexivity.
  - left. reflexivity.
Defined.

(** The runs of the transport examples, end to end. *)
Example connect_http_url :
  run (main_connect Examples.ext url_ParseSimple flags.defaults
         "http://example.com:8080")
  = (Ret (Examples.plain_conn "example.com:8080"),
     [BlockingDial (Examples.plain_conn "example.com:8080")]).
Proof. reflexivity. Qed.

Example connect_https_url_plaintext :
  fst (run (main_connect Examples.ext url_ParseSimple Examples.plaintext_only
              "https://example.com/svc"))
  = Exited 2.
Proof. reflexivity. Qed.

Example connect_https_path :
  fst (run (main_connect Examples.ext url_ParseSimple flags.defaults
              "https://example.com/svc"))
  = Ret (Examples.tls_conn "example.com:443" "example.com").
Proof. reflexivity. Qed.

Example connect_https_root_path :
  fst (run (main_connect Examples.ext url_ParseSimple flags.defaults
              "https://example.com/"))
  = Ret (Examples.tls_conn "example.com:443" "").
Proof. reflexivity. Qed.

(** * Further properties *)

(** ** The composite descriptor source: tags and errors *)

Section CompositeMore.
Context {Descriptor FieldDescriptor : Type}.
Variable GetNumber : FieldDescriptor -> Z.

Abbreviation composite' := (compositeSource Descriptor FieldDescriptor).

Lemma merged_tags (exts fileExts : list FieldDescriptor) (k : Z) :
  k ∈ GetNumber <$>
        append_untracked GetNumber (track_tags GetNumber exts) exts fileExts
  <-> k ∈ GetNumber <$> exts \/ k ∈ GetNumber <$> fileExts.
Proof.
  rewrite merge_is_filter, fmap_app, elem_of_app, !list_elem_of_fmap.
  split.
  - intros [?|(e & -> & [_ He]%list_elem_of_filter)]; eauto.
  - intros [?|(e & -> & He)]; [by left|].
    destruct (decide (GetNumber e ∈ GetNumber <$> exts)) as [Hin|Hout].
    + left. by apply list_elem_of_fmap.
    + right. exists e. split; [done|]. by apply list_elem_of_filter.
Qed.

(** X1: when both queries succeed, the tag numbers of the merged listing
    are exactly those of the reflection extensions together with those of
    the file extensions: no tag of either source is lost and none is
    made up. *)
Theorem AllExtensionsForType_tags_union (cs : composite')
    (typeName : string) (exts fileExts : list FieldDescriptor) :
  AllExtensionsForType (reflection cs) typeName = Ok exts ->
  AllExtensionsForType (file cs) typeName = Ok fileExts ->
  exists merged,
    compositeSource_AllExtensionsForType GetNumber cs typeName = Ok merged
    /\ forall k, k ∈ GetNumber <$> merged
                 <-> k ∈ GetNumber <$> exts \/ k ∈ GetNumber <$> fileExts.
Proof.
  intros Hrefl Hfile. unfold compositeSource_AllExtensionsForType.
  rewrite Hrefl, Hfile. eexists. split; [reflexivity|]. apply merged_tags.
Qed.

(** X2: when each source lists at most one extension per tag number, so
    does the merged listing. *)
Theorem AllExtensionsForType_tags_NoDup (cs : composite')
    (typeName : string) (exts fileExts : list FieldDescriptor) :
  AllExtensionsForType (reflection cs) typeName = Ok exts ->
  AllExtensionsForType (file cs) typeName = Ok fileExts ->
  NoDup (GetNumber <$> exts) ->
  NoDup (GetNumber <$> fileExts) ->
  exists merged,
    compositeSource_AllExtensionsForType GetNumber cs typeName = Ok merged
    /\ NoDup (GetNumber <$> merged).
Proof.
  intros Hrefl Hfile Hexts Hfiles. unfold compositeSource_AllExtensionsForType.
  rewrite Hrefl, Hfile. eexists. split; [reflexivity|].
  rewrite merge_is_filter, fmap_app. apply NoDup_app. split; [done|]. split.
  - intros k Hk (e & -> & [He _]%list_elem_of_filter)%list_elem_of_fmap.
    contradiction.
  - clear Hrefl Hfile. induction fileExts as [|e fileExts IH]; [constructor|].
    inversion Hfiles as [|? ? Hnotin Hrest]; subst.
    rewrite filter_cons. destruct (decide _); [|by apply IH].
    rewrite fmap_cons. constructor; [|by apply IH].
    intros (e' & Heq & [_ He']%list_elem_of_filter)%list_elem_of_fmap.
    apply Hnotin. rewrite Heq. apply list_elem_of_fmap. eauto.
Qed.

(** X3: the merge at its two extremes.  When every tag the file source
    lists is one reflection produced, the result is the reflection listing
    unchanged; when none is, it is the reflection listing followed by the
    whole file listing, duplicates within the file listing included. *)
Theorem AllExtensionsForType_extremes (cs : composite')
    (typeName : string) (exts fileExts : list FieldDescriptor) :
  AllExtensionsForType (reflection cs) typeName = Ok exts ->
  AllExtensionsForType (file cs) typeName = Ok fileExts ->
  ((forall e, e ∈ fileExts -> GetNumber e ∈ GetNumber <$> exts) ->
   compositeSource_AllExtensionsForType GetNumber cs typeName = Ok exts)
  /\ ((forall e, e ∈ fileExts -> GetNumber e ∉ GetNumber <$> exts) ->
      compositeSource_AllExtensionsForType GetNumber cs typeName
      = Ok (exts ++ fileExts)).
Proof.
  intros Hrefl Hfile. unfold compositeSource_AllExtensionsForType.
  rewrite Hrefl, Hfile, merge_is_filter. split; intros Hall; f_equal.
  - assert (filter (fun e => GetNumber e ∉ GetNumber <$> exts) fileExts = [])
      as ->; [|by rewrite app_nil_r].
    clear Hfile. induction fileExts as [|e fileExts IH]; [done|].
    rewrite filter_cons, decide_False.
    + apply IH. intros e' He'. apply Hall. by right.
    + intros Hno. apply Hno, Hall. by left.
  - f_equal. clear Hfile. induction fileExts as [|e fileExts IH]; [done|].
    rewrite filter_cons, decide_True.
    + f_equal. apply IH. intros e' He'. apply Hall. by right.
    + apply Hall. by left.
Qed.

(** X4: an error of the composite source is always the file source's: when
    [FindSymbol] or [AllExtensionsForType] fails, reflection failed too and
    the error returned is the one the file source gave, the reflection
    error being dropped. *)
Theorem compositeSource_errors_from_file (cs : composite') (name : string)
    (err : error) :
  (compositeSource_FindSymbol cs name = Err err ->
   FindSymbol (file cs) name = Err err
   /\ exists err', FindSymbol (reflection cs) name = Err err')
  /\ (compositeSource_AllExtensionsForType GetNumber cs name = Err err ->
      AllExtensionsForType (file cs) name = Err err
      /\ exists err', AllExtensionsForType (reflection cs) name = Err err').
Proof.
  unfold compositeSource_FindSymbol, compositeSource_AllExtensionsForType.
  split.
  - destruct (FindSymbol (reflection cs) name); [discriminate|eauto].
  - destruct (AllExtensionsForType (reflection cs) name); [|eauto].
    destruct (AllExtensionsForType (file cs) name); discriminate.
Qed.
End CompositeMore.

(** ** Target resolution: the shape of every result *)

Section TargetMore.
Variable url_Parse : string -> result url.URL.

(** X5: what holds of every target [parseTarget] returns, whatever
    [url.Parse] does.  [useTLS] is set only on a URL; a URL has scheme http
    or https, a port that is not empty, the address host:port, and [useTLS]
    exactly for https; anything else has the input as address and host,
    no port, no path and no TLS. *)
Theorem parseTarget_invariant (target : string) :
  exists pt,
    parseTarget url_Parse target = Ok pt
    /\ (useTLS pt = true -> wasURL pt = true)
    /\ (wasURL pt = true ->
        (scheme pt = "http" \/ scheme pt = "https")
        /\ port pt <> ""
        /\ address pt = host pt +:+ ":" +:+ port pt
        /\ (useTLS pt = true <-> scheme pt = "https"))
    /\ (wasURL pt = false ->
        address pt = target /\ host pt = target /\ port pt = ""
        /\ path pt = "" /\ useTLS pt = false).
Proof.
  unfold parseTarget.
  destruct (_ || _); [eexists; split; [reflexivity|]; simpl; by auto|].
  destruct (url_Parse target) as [u|];
    [|eexists; split; [reflexivity|]; simpl; by auto].
  destruct (String.eqb_spec (url.Scheme u) "") as [->|Hempty];
    [eexists; split; [reflexivity|]; simpl; by auto|].
  destruct (String.eqb_spec (url.Scheme u) "http") as [Hhttp|Hhttp].
  - rewrite Hhttp. simpl. eexists. split; [reflexivity|]. simpl.
    split; [discriminate|]. split; [|discriminate]. intros _.
    split; [by left|]. split; [by destruct (String.eqb_spec (url.Port u) "")|].
    split; [done|]. split; discriminate.
  - destruct (String.eqb_spec (url.Scheme u) "https") as [Hhttps|Hhttps].
    + rewrite Hhttps. simpl. eexists. split; [reflexivity|]. simpl.
      split; [done|]. split; [|discriminate]. intros _.
      split; [by right|].
      split; [by destruct (String.eqb_spec (url.Port u) "")|]. done.
    + cbn [negb andb orb].
      destruct (_ && _); eexists; (split; [reflexivity|]); simpl; by auto.
Qed.
End TargetMore.

(** X6: for an http or https URL the query, the fragment and the opaque
    part of the parse play no role: two parses that agree on scheme, host
    and path resolve to the same target. *)
Theorem parseTarget_ignores_query (parse1 parse2 : string -> result url.URL)
    (target : string) (u1 u2 : url.URL) :
  parse1 target = Ok u1 ->
  parse2 target = Ok u2 ->
  url.Scheme u1 = "http" \/ url.Scheme u1 = "https" ->
  url.Scheme u1 = url.Scheme u2 ->
  url.Host u1 = url.Host u2 ->
  url.Path u1 = url.Path u2 ->
  parseTarget parse1 target = parseTarget parse2 target.
Proof.
  intros H1 H2 Hscheme Hs Hh Hp. unfold parseTarget, url.Hostname, url.Port.
  rewrite H1, H2, <- Hs, <- Hh, <- Hp.
  destruct (_ || _); [done|].
  destruct Hscheme as [-> | ->]; reflexivity.
Qed.

(** ** Validation and the transport mode *)

Section ValidationMore.
Variable ext : Externals.
Variable fl : flags.t.

Lemma when_fail_bind {A} (c : bool) (msg : string) (k : unit -> proc A)
    (t : list event) :
  bind (when c (fail ext None msg [])) k t
  = if c
    then (Exited 2,
          t ++ [Fprintf Stderr msg []; Fprintln Stderr;
                Fprintf Stderr ("Try '%s -help' for more details." +:+ nl)
                  [VString (Args0 ext)]])
    else k tt t.
Proof.
  destruct c; unfold when; [|reflexivity].
  unfold bind at 1. by rewrite fail_usage.
Qed.

Lemma eqb_string_false (a b : string) : String.eqb a b = false -> a <> b.
Proof. by intros H%String.eqb_neq. Qed.

Lemma length_pos_false {A} (l : list A) :
  (0 <? length l)%nat = false <-> l = [].
Proof. destruct l; simpl; split; intros; done. Qed.

Lemma main_validate_valid_args (usetls : bool) (t : list event) :
  (exists t', main_validate ext fl usetls t = (Ret tt, t'))
  <-> valid_args fl usetls.
Proof.
  unfold main_validate, valid_args. split.
  - intros [t' H].
    repeat (rewrite when_fail_bind in H;
            match type of H with
            | (if ?c then _ else _) = _ =>
                let Hc := fresh "Hc" in
                destruct c eqn:Hc; [discriminate H|]
            end).
    clear H.
    apply Z.ltb_ge in Hc2.
    apply andb_false_iff in Hc3.
    repeat split; try done.
    + intros Hi. rewrite Hi in Hc4. by destruct usetls.
    + intros Hn. rewrite (eqb_string_neq _ _ Hn) in Hc5. by destruct usetls.
    + intros Hn. rewrite (eqb_string_neq _ _ Hn) in Hc6. by destruct usetls.
    + intros Hk. rewrite Hk in Hc7.
      destruct (String.eqb_spec (flags.cert fl) ""); done.
    + intros Hk. rewrite Hk in Hc7.
      destruct (String.eqb_spec (flags.key fl) ""); done.
    + intros Hn. rewrite (eqb_string_neq _ _ Hn) in Hc8.
      by destruct (flags.usealts fl).
    + intros Hn. destruct (flags.usealts fl); [done|].
      rewrite andb_true_r in Hc9. by apply length_pos_false in Hc9.
    + destruct (String.eqb_spec (flags.format fl) "json"); [by left|].
      destruct (String.eqb_spec (flags.format fl) "text"); [by right|done].
  - intros (H1 & H2 & H3 & H4 & H5 & H6 & H7 & H8 & H9 & H10 & H11 & H12).
    rewrite !when_fail_bind, H1, H2, H3.
    assert ((flags.maxMsgSz fl <? 0)%Z = false) as -> by lia.
    assert (flags.plaintext fl && flags.usealts fl = false) as ->.
    { destruct H5 as [-> | ->]; [done|apply andb_false_r]. }
    assert (flags.insecure fl && negb usetls = false) as ->.
    { destruct (flags.insecure fl); [by rewrite H6|done]. }
    assert (negb (String.eqb (flags.cert fl) "") && negb usetls = false)
      as ->.
    { destruct (String.eqb_spec (flags.cert fl) ""); [done|by rewrite H7]. }
    assert (negb (String.eqb (flags.key fl) "") && negb usetls = false)
      as ->.
    { destruct (String.eqb_spec (flags.key fl) ""); [done|by rewrite H8]. }
    assert (negb (Bool.eqb (String.eqb (flags.key fl) "")
                    (String.eqb (flags.cert fl) "")) = false) as ->.
    { destruct (String.eqb_spec (flags.key fl) "") as [Hk|Hk],
               (String.eqb_spec (flags.cert fl) "") as [Hc|Hc];
        try done; tauto. }
    assert (negb (String.eqb (flags.altsHandshakerServiceAddress fl) "")
            && negb (flags.usealts fl) = false) as ->.
    { destruct (String.eqb_spec (flags.altsHandshakerServiceAddress fl) "");
        [done|by rewrite H10]. }
    assert ((0 <? length (flags.altsTargetServiceAccounts fl))%nat
            && negb (flags.usealts fl) = false) as ->.
    { destruct (flags.altsTargetServiceAccounts fl); [done|by rewrite H11]. }
    assert (negb (String.eqb (flags.format fl) "json")
            && negb (String.eqb (flags.format fl) "text") = false) as ->.
    { destruct H12 as [-> | ->]; done. }
    unfold when, warn, emit, ret. destruct (_ && _); eauto.
Qed.

(** X7: the validation lets the run go on exactly when the flags meet
    [valid_args]: no negative timeout or size, not [-plaintext] with
    [-alts], [-insecure], [-cert] and [-key] only with TLS, [-cert] and
    [-key] together, the two ALTS options only with [-alts], and a format
    of json or text.  Nothing else is checked there. *)
Theorem main_validate_accepts (usetls : bool) (t : list event) :
  (exists t', main_validate ext fl usetls t = (Ret tt, t'))
  <-> valid_args fl usetls.
Proof.
  split.
  - intros Hret. by apply (main_validate_valid_args usetls t).
  - intros Hvalid. by apply main_validate_valid_args.
Qed.

(** What the selection step can return. *)
Lemma main_usetls_returns (parsedAddr : option parsedTarget)
    (usetls fp : bool) (t t' : list event) :
  main_usetls ext fl parsedAddr t = (Ret (usetls, fp), t') ->
  (usetls = negb (flags.plaintext fl) && negb (flags.usealts fl)
   /\ fp = flags.plaintext fl)
  \/ (usetls = false /\ fp = true /\ flags.plaintext fl = false
      /\ flags.usealts fl = false
      /\ exists pa, parsedAddr = Some pa /\ wasURL pa = true
                    /\ useTLS pa = false).
Proof.
  unfold main_usetls.
  destruct parsedAddr as [pa|]; [|intros [= <- <- _]; by left].
  destruct (wasURL pa) eqn:Hurl; [|intros [= <- <- _]; by left].
  rewrite when_fail_bind.
  destruct (useTLS pa) eqn:Htls, (flags.plaintext fl) eqn:Hp,
    (flags.usealts fl) eqn:Ha; simpl; intros [=]; subst; auto.
  right. eauto 10.
Qed.

(** X8: once selection and validation have passed, exactly one transport
    mode is on: plaintext, ALTS or TLS.  For a target resolved as a URL the
    mode is TLS whenever the scheme is https and is never TLS when it is
    http. *)
Theorem exactly_one_transport_mode (parsedAddr : option parsedTarget)
    (usetls fp : bool) (t t1 t2 : list event) :
  main_usetls ext fl parsedAddr t = (Ret (usetls, fp), t1) ->
  main_validate ext fl usetls t1 = (Ret tt, t2) ->
  ((fp = true /\ flags.usealts fl = false /\ usetls = false)
   \/ (fp = false /\ flags.usealts fl = true /\ usetls = false)
   \/ (fp = false /\ flags.usealts fl = false /\ usetls = true))
  /\ (forall pa, parsedAddr = Some pa -> wasURL pa = true ->
        (useTLS pa = true -> usetls = true)
        /\ (useTLS pa = false -> usetls = false)).
Proof.
  intros Hsel Hval.
  assert (valid_args fl usetls) as Hvalid
    by (apply (main_validate_valid_args usetls t1); eauto).
  destruct Hvalid as (_ & _ & _ & _ & Hexcl & _).
  pose proof (main_usetls_returns _ _ _ _ _ Hsel) as Hret.
  split.
  - destruct Hret as [[-> ->]|(-> & -> & Hp & Ha & _)]; [|auto].
    destruct (flags.plaintext fl), (flags.usealts fl), Hexcl; auto.
  - intros pa -> Hurl. revert Hsel. unfold main_usetls.
    rewrite Hurl, when_fail_bind.
    destruct (useTLS pa), (flags.plaintext fl), (flags.usealts fl); simpl;
      intros [=]; subst; split; intros; done.
Qed.
End ValidationMore.

(** ** The dial *)

Lemma never_dialed_dialed (es : list event) :
  never_dialed es = true -> dialed es = [].
Proof.
  unfold never_dialed, dialed. induction es as [|e es IH]; [done|].
  simpl. intros [He Hes]%andb_true_iff. destruct e; try done; by apply IH.
Qed.

Lemma dialed_app (t es : list event) : dialed (t ++ es) = dialed t ++ dialed es.
Proof. apply omap_app. Qed.

Section QuietFacts.
Variable ext : Externals.

Lemma quiet_ret {A} (a : A) : quiet (ret a).
Proof. intros t. exists [], (Ret a). unfold ret. by rewrite app_nil_r. Qed.

Lemma quiet_fail {A} (err : option error) (msg : string) (args : list value) :
  quiet (@fail ext A err msg args).
Proof.
  intros t. destruct err; [rewrite fail_error|rewrite fail_usage];
    eexists _, _; split; try reflexivity; done.
Qed.

Lemma quiet_warn (msg : string) : quiet (warn msg).
Proof. intros t. eexists _, _. split; [reflexivity|done]. Qed.

Lemma quiet_panic {A} (msg : string) : quiet (@panic A msg).
Proof.
  intros t. exists [], (Panicked msg). unfold panic. by rewrite app_nil_r.
Qed.

Lemma quiet_bind {A B} (m : proc A) (k : A -> proc B) :
  quiet m -> (forall a, quiet (k a)) -> quiet (bind m k).
Proof.
  intros Hm Hk t. destruct (Hm t) as (es & o & Heq & Hes).
  unfold bind. rewrite Heq. destruct o as [a| |]; [|by eauto..].
  destruct (Hk a (t ++ es)) as (es' & o' & Heq' & Hes').
  exists (es ++ es'), o'. rewrite Heq', app_assoc. split; [done|].
  by rewrite never_dialed_app, Hes, Hes'.
Qed.

Lemma no_panic_ret {A} (a : A) : no_panic (ret a).
Proof. intros t msg t'. discriminate. Qed.

Lemma no_panic_fail {A} (err : option error) (msg : string)
    (args : list value) :
  no_panic (@fail ext A err msg args).
Proof.
  intros t m t'. destruct err; [rewrite fail_error|rewrite fail_usage];
    discriminate.
Qed.

Lemma no_panic_warn (msg : string) : no_panic (warn msg).
Proof. intros t m t'. discriminate. Qed.

Lemma no_panic_when (b : bool) (m : proc unit) :
  no_panic m -> no_panic (when b m).
Proof. destruct b; [done|intros _; apply no_panic_ret]. Qed.

Lemma no_panic_bind {A B} (m : proc A) (k : A -> proc B) :
  no_panic m ->
  (forall a t t', m t = (Ret a, t') -> no_panic (k a)) ->
  no_panic (bind m k).
Proof.
  intros Hm Hk t msg t'. unfold bind.
  destruct (m t) as [[a| |] t1] eqn:Heq.
  - eapply Hk, Heq.
  - discriminate.
  - by destruct (Hm t msg0 t1).
Qed.
End QuietFacts.

Lemma bind_run {A B} (m : proc A) (k : A -> proc B) (t t' : list event)
    (o : outcome A) :
  m t = (o, t') ->
  bind m k t
  = match o with
    | Ret a => k a t'
    | Exited code => (Exited code, t')
    | Panicked msg => (Panicked msg, t')
    end.
Proof. intros Heq. unfold bind. by rewrite Heq. Qed.

Create HintDb quiet.
#[local] Hint Resolve quiet_ret quiet_fail quiet_warn quiet_panic : quiet.
Create HintDb no_panic.
#[local] Hint Resolve no_panic_ret no_panic_fail no_panic_warn : no_panic.

Lemma append_assoc (a b c : string) : (a +:+ b) +:+ c = a +:+ b +:+ c.
Proof.
  induction a as [|x a IH]; [reflexivity|].
  change (String x ((a +:+ b) +:+ c) = String x (a +:+ b +:+ c)).
  by rewrite IH.
Qed.

Section DialMore.
Variable ext : Externals.
Variable fl : flags.t.

Lemma quiet_dial_tls (parsedAddr : option parsedTarget)
    (opts : list DialOption) :
  quiet (dial_tls ext fl parsedAddr opts).
Proof.
  unfold dial_tls.
  apply quiet_bind; [destruct (grpcurl_ClientTLSConfig _ _ _ _ _);
                     auto with quiet|intros tlsConf].
  apply quiet_bind.
  { destruct (negb _); [|auto with quiet].
    destruct (os_OpenFile _ _); auto with quiet. }
  intros tlsConf'. apply quiet_bind; [|intros _; auto with quiet].
  destruct (_ && _); [|auto with quiet].
  destruct (String.eqb _ _); auto with quiet.
Qed.

Lemma no_panic_dial_tls (parsedAddr : option parsedTarget)
    (opts : list DialOption) :
  no_panic (dial_tls ext fl parsedAddr opts).
Proof.
  unfold dial_tls.
  apply no_panic_bind; [destruct (grpcurl_ClientTLSConfig _ _ _ _ _);
                        auto with no_panic|intros tlsConf _ _ _].
  apply no_panic_bind.
  { destruct (negb _); [|auto with no_panic].
    destruct (os_OpenFile _ _); auto with no_panic. }
  intros tlsConf' _ _ _.
  apply no_panic_bind; [|intros; auto with no_panic].
  destruct (_ && _); [|auto with no_panic].
  destruct (String.eqb _ _); auto with no_panic.
Qed.

(** The dial time, the target and the user agent of a dial. *)
Lemma dial_cases (parsedAddr : option parsedTarget) (target : string)
    (usetls fp : bool) (t : list event) :
  (exists es o,
      dial ext fl parsedAddr target usetls fp t = (o, t ++ es)
      /\ never_dialed es = true /\ forall cc, o <> Ret cc)
  \/ (exists pre post o creds opts cc,
        dial ext fl parsedAddr target usetls fp t
        = (o, t ++ pre ++ BlockingDial cc :: post)
        /\ never_dialed pre = true /\ never_dialed post = true
        /\ cc_timeout cc
           = (if (0 <? flags.connectTimeout fl)%float
              then floatSecondsToDuration (flags.connectTimeout fl)
              else Seconds 10)
        /\ cc_target cc
           = (if match isUnixSocket ext with Some b => b | None => false end
                 && negb (strings.HasPrefix target "unix://")
              then "unix://" +:+ target else target)
        /\ cc_creds cc = creds
        /\ cc_opts cc
           = opts
             ++ [WithUserAgent
                   ((if negb (String.eqb (flags.userAgent fl) "")
                     then flags.userAgent fl +:+ " " else "")
                    +:+ (if String.eqb (version ext) noVersion
                         then "grpcurl/dev-build (no version set)"
                         else "grpcurl/" +:+ version ext))]
        /\ (forall o0, In o0 opts -> forall ua, o0 <> WithUserAgent ua)
        /\ ((grpcurl_BlockingDial ext cc = None /\ o = Ret cc /\ post = [])
            \/ (exists err, grpcurl_BlockingDial ext cc = Some err
                            /\ o = Exited 1))).
Proof.
  unfold dial. cbv zeta.
  set (opts0 := if (0 <? flags.maxMsgSz fl)%Z then _ else _).
  assert (forall o0, In o0 opts0 -> forall ua, o0 <> WithUserAgent ua)
    as Hopts0.
  { subst opts0. intros o0 Hin ua ->.
    destruct (0 <? flags.maxMsgSz fl)%Z, (0 <? flags.keepaliveTime fl)%float;
      simpl in Hin; intuition discriminate. }
  match goal with
  | |- context [bind ?step _] =>
      assert (quiet step
              /\ forall co t0 t1, step t0 = (Ret co, t1) ->
                   forall o0, In o0 (snd co) ->
                     forall ua, o0 <> WithUserAgent ua) as [Hq Hco]
  end.
  { split.
    - destruct fp; [auto with quiet|].
      destruct (flags.usealts fl); [auto with quiet|].
      destruct usetls; [apply quiet_dial_tls|auto with quiet].
    - intros co t0 t1. destruct fp.
      { intros [= <- _]. simpl. intros o0 Hin ua ->.
        destruct (negb _); [apply in_app_or in Hin as [Hin|Hin]|];
          try (by eapply Hopts0); simpl in Hin; intuition discriminate. }
      destruct (flags.usealts fl); [intros [= <- _]; exact Hopts0|].
      destruct usetls; [|discriminate].
      unfold dial_tls, bind, ret, warn, emit.
      destruct (grpcurl_ClientTLSConfig _ _ _ _ _);
        [|rewrite fail_error; discriminate].
      destruct (negb (String.eqb (SSLKEYLOGFILE ext) ""));
        [destruct (os_OpenFile _ _); [|rewrite fail_error; discriminate]|];
        (destruct (_ && _);
         [destruct (String.eqb (flags.serverName fl) (flags.authority fl));
          [|rewrite fail_usage; discriminate]|]);
        intros [= <- _]; simpl; intros o0 Hin ua ->;
        (destruct (negb _); [apply in_app_or in Hin as [Hin|Hin]|]);
        try (by eapply Hopts0); simpl in Hin; intuition discriminate. }
  destruct (Hq t) as (pre & o & Hstep & Hpre).
  rewrite !(bind_run _ _ _ _ _ Hstep).
  destruct o as [co| |]; [|left; eexists _, _; by eauto..].
  right. cbn [fst snd]. unfold bind, emit.
  match goal with
  | |- context [grpcurl_BlockingDial ext ?c] => set (cc := c)
  end.
  assert (cc_opts cc = co.2 ++ [WithUserAgent
           ((if negb (String.eqb (flags.userAgent fl) "")
             then flags.userAgent fl +:+ " " else "")
            +:+ (if String.eqb (version ext) noVersion
                 then "grpcurl/dev-build (no version set)"
                 else "grpcurl/" +:+ version ext))]) as Hua.
  { subst cc. simpl. do 2 f_equal.
    destruct (negb (String.eqb (flags.userAgent fl) "")); [|done].
    by rewrite append_assoc. }
  destruct (grpcurl_BlockingDial ext cc) as [err|] eqn:Hdial.
  - rewrite fail_error, <- !app_assoc.
    exists pre, [Fprintf Stderr ("Failed to dial target host %q" +:+ ": %v")
                   ([VString (cc_target cc)] ++ [VError err]);
                 Fprintln Stderr], (Exited 1), co.1, co.2, cc.
    repeat split; eauto.
  - rewrite <- app_assoc.
    exists pre, [], (Ret cc), co.1, co.2, cc.
    repeat split; eauto.
Qed.

(** X9: a dial calls [grpcurl.BlockingDial] at most once and never again
    after a failure: when it returns a connection, that connection is the
    one dialed and the one call succeeded; when the one call fails, the
    process exits with code 1. *)
Theorem dial_at_most_once (parsedAddr : option parsedTarget)
    (target : string) (usetls fp : bool) (t : list event) :
  exists o es,
    dial ext fl parsedAddr target usetls fp t = (o, t ++ es)
    /\ (length (dialed es) <= 1)%nat
    /\ (forall cc, o = Ret cc ->
          dialed es = [cc] /\ grpcurl_BlockingDial ext cc = None)
    /\ (forall cc err, dialed es = [cc] ->
          grpcurl_BlockingDial ext cc = Some err -> o = Exited 1).
Proof.
  destruct (dial_cases parsedAddr target usetls fp t)
    as [(es & o & Heq & Hes & Hno)
       |(pre & post & o & creds & opts & cc & Heq & Hpre & Hpost & _ & _ & _
         & _ & _ & Hout)].
  - exists o, es. rewrite (never_dialed_dialed _ Hes).
    split; [done|]. split; [simpl; lia|]. split.
    + intros c0 Hc0. by destruct (Hno c0).
    + intros c0 err [=].
  - exists o, (pre ++ BlockingDial cc :: post).
    rewrite dialed_app, (never_dialed_dialed _ Hpre). simpl.
    rewrite (never_dialed_dialed _ Hpost).
    split; [done|]. split; [simpl; lia|]. split.
    + intros c0 ->. destruct Hout as [(Hd & [= ->] & _)|(err & _ & [=])].
      done.
    + intros c0 err [= <-] Hd.
      destruct Hout as [(Hd' & _)|(err' & _ & ->)]; congruence.
Qed.
End DialMore.

Lemma HasPrefix_unix (s : string) :
  strings.HasPrefix ("unix://" +:+ s) "unix://" = true.
Proof.
  unfold strings.HasPrefix. apply String.prefix_correct.
  destruct s; reflexivity.
Qed.

Section DialFacts.
Variable ext : Externals.
Variable fl : flags.t.

(** The one connection a finished dial has among its events, if any. *)
Lemma dial_dialed (parsedAddr : option parsedTarget) (target : string)
    (usetls fp : bool) (t es : list event) (o : outcome ClientConn)
    (cc : ClientConn) :
  dial ext fl parsedAddr target usetls fp t = (o, t ++ es) ->
  cc ∈ dialed es ->
  cc_target cc
  = (if match isUnixSocket ext with Some b => b | None => false end
        && negb (strings.HasPrefix target "unix://")
     then "unix://" +:+ target else target)
  /\ exists opts,
       cc_opts cc
       = opts
         ++ [WithUserAgent
               ((if negb (String.eqb (flags.userAgent fl) "")
                 then flags.userAgent fl +:+ " " else "")
                +:+ (if String.eqb (version ext) noVersion
                     then "grpcurl/dev-build (no version set)"
                     else "grpcurl/" +:+ version ext))]
       /\ forall o0, In o0 opts -> forall ua, o0 <> WithUserAgent ua.
Proof.
  intros Hdial Hcc.
  destruct (dial_cases ext fl parsedAddr target usetls fp t)
    as [(es' & o' & Heq & Hes & _)
       |(pre & post & o' & creds & opts & cc' & Heq & Hpre & Hpost & _
         & Htarget & _ & Hopts & Hnoua & _)];
    rewrite Hdial in Heq; injection Heq as -> Hes'%app_inv_head; subst es.
  - rewrite (never_dialed_dialed _ Hes) in Hcc. by apply elem_of_nil in Hcc.
  - rewrite dialed_app, (never_dialed_dialed _ Hpre) in Hcc. simpl in Hcc.
    rewrite (never_dialed_dialed _ Hpost) in Hcc.
    apply list_elem_of_singleton in Hcc as ->. eauto.
Qed.

(** X10: on a platform where [isUnixSocket] reports a unix socket, the
    target dialed always starts with [unix://]: the prefix is added when
    missing and not added twice; elsewhere the target is dialed as given. *)
Theorem dial_unix_target (parsedAddr : option parsedTarget)
    (target : string) (usetls fp : bool) (t es : list event)
    (o : outcome ClientConn) (cc : ClientConn) :
  dial ext fl parsedAddr target usetls fp t = (o, t ++ es) ->
  cc ∈ dialed es ->
  (isUnixSocket ext = Some true ->
   strings.HasPrefix (cc_target cc) "unix://" = true
   /\ (strings.HasPrefix target "unix://" = true -> cc_target cc = target)
   /\ (strings.HasPrefix target "unix://" = false ->
       cc_target cc = "unix://" +:+ target))
  /\ (isUnixSocket ext <> Some true -> cc_target cc = target).
Proof.
  intros Hdial Hcc.
  destruct (dial_dialed _ _ _ _ _ _ _ _ Hdial Hcc) as [-> _]. split.
  - intros ->.
    destruct (strings.HasPrefix target "unix://") eqn:Hp; cbn [negb andb].
    + by rewrite Hp.
    + by rewrite HasPrefix_unix.
  - intros Hno. destruct (isUnixSocket ext) as [[]|]; done.
Qed.

(** X11: every dial carries exactly one user-agent option, the last of
    its options; the agent is the grpcurl tag (the version, or the
    dev-build tag when no version is set), preceded by the [-user-agent]
    value and a space when that flag is given: the flag adds to the tag
    and never replaces it. *)
Theorem dial_user_agent (parsedAddr : option parsedTarget)
    (target : string) (usetls fp : bool) (t es : list event)
    (o : outcome ClientConn) (cc : ClientConn) :
  dial ext fl parsedAddr target usetls fp t = (o, t ++ es) ->
  cc ∈ dialed es ->
  exists opts tag,
    tag = (if String.eqb (version ext) noVersion
           then "grpcurl/dev-build (no version set)"
           else "grpcurl/" +:+ version ext)
    /\ cc_opts cc
       = opts ++ [WithUserAgent
                    ((if negb (String.eqb (flags.userAgent fl) "")
                      then flags.userAgent fl +:+ " " else "") +:+ tag)]
    /\ (forall o0, In o0 opts -> forall ua, o0 <> WithUserAgent ua).
Proof.
  intros Hdial Hcc.
  destruct (dial_dialed _ _ _ _ _ _ _ _ Hdial Hcc)
    as (_ & opts & Hopts & Hnoua).
  exists opts. eexists. split; [reflexivity|]. eauto.
Qed.

Lemma no_panic_dial (parsedAddr : option parsedTarget) (target : string)
    (usetls fp : bool) :
  fp = true \/ flags.usealts fl = true \/ usetls = true ->
  no_panic (dial ext fl parsedAddr target usetls fp).
Proof.
  intros Hmode. unfold dial. cbv zeta. apply no_panic_bind.
  - destruct fp; [auto with no_panic|].
    destruct (flags.usealts fl); [auto with no_panic|].
    destruct usetls; [apply no_panic_dial_tls|].
    destruct Hmode as [?|[?|?]]; discriminate.
  - intros co _ _ _. apply no_panic_bind; [intros ? ? ?; discriminate|].
    intros _ _ _ _. destruct (grpcurl_BlockingDial _ _); auto with no_panic.
Qed.

Lemma no_panic_main_validate (usetls : bool) :
  no_panic (main_validate ext fl usetls).
Proof.
  intros t msg t' Heq.
  destruct (main_validate_checks ext fl usetls t)
    as (es & _ & [[[] H]|H]); congruence.
Qed.

Lemma no_panic_main_usetls (parsedAddr : option parsedTarget) :
  no_panic (main_usetls ext fl parsedAddr).
Proof.
  intros t msg t' Heq.
  destruct (main_usetls_cases ext fl parsedAddr) as [(u & f & H)|H].
  - rewrite H in Heq. discriminate.
  - destruct (H t) as (es & _ & H'). congruence.
Qed.

(** X12: the panic "Should have defaulted to use TLS." never happens:
    whatever the flags, the target and the externals, a run from the target
    argument to the dial ends by returning or by [exit]. *)
Theorem main_connect_never_panics (url_Parse : string -> result url.URL)
    (args0 : string) :
  no_panic (main_connect ext url_Parse fl args0).
Proof.
  unfold main_connect. apply no_panic_bind.
  - unfold main_target. destruct (_ && _); [|auto with no_panic].
    destruct (parseTarget _ _); auto with no_panic.
  - intros [target parsedAddr] _ _ _. cbn [fst snd].
    unfold main_dial. apply no_panic_bind; [apply no_panic_main_usetls|].
    intros [usetls fp] t t' Hsel. cbn [fst snd].
    apply no_panic_bind; [apply no_panic_main_validate|].
    intros _ _ _ _. apply no_panic_dial.
    destruct (main_usetls_returns _ _ _ _ _ _ _ Hsel)
      as [[-> ->]|(_ & -> & _)]; [|auto].
    destruct (flags.plaintext fl), (flags.usealts fl); auto.
Qed.

(** X13: under [-alts] without [-plaintext], [-authority] is not used:
    the run from selection to dial is the same whatever its value. *)
Theorem alts_ignores_authority (parsedAddr : option parsedTarget)
    (target name : string) (t : list event) :
  flags.usealts fl = true ->
  flags.plaintext fl = false ->
  main_dial ext (with_authority name fl) parsedAddr target t
  = main_dial ext fl parsedAddr target t.
Proof.
  intros Halts Hplain. unfold main_dial.
  change (main_usetls ext (with_authority name fl) parsedAddr)
    with (main_usetls ext fl parsedAddr).
  destruct (main_usetls ext fl parsedAddr t) as [[[usetls fp]| |] t1] eqn:Hsel;
    rewrite !(bind_run _ _ _ _ _ Hsel); try reflexivity.
  cbn [fst snd].
  change (main_validate ext (with_authority name fl) usetls)
    with (main_validate ext fl usetls).
  destruct (main_validate ext fl usetls t1) as [[[]| |] t2] eqn:Hval;
    rewrite !(bind_run _ _ _ _ _ Hval); try reflexivity.
  destruct (main_usetls_returns _ _ _ _ _ _ _ Hsel)
    as [[-> ->]|(_ & _ & _ & Ha & _)]; [|congruence].
  rewrite Halts, Hplain. simpl. unfold dial.
  change (flags.usealts (with_authority name fl)) with (flags.usealts fl).
  rewrite Halts. reflexivity.
Qed.

(** X14: in TLS mode each failure of the credentials setup ends the run
    before the dial: a TLS configuration that cannot be built and a key
    log that cannot be opened exit with code 1, and [-servername] and
    [-authority] given with different values exit with code 2. *)
Theorem tls_setup_failures (parsedAddr : option parsedTarget)
    (target : string) (t : list event) :
  flags.usealts fl = false ->
  (forall err,
      grpcurl_ClientTLSConfig ext (flags.insecure fl) (flags.cacert fl)
        (flags.cert fl) (flags.key fl) = Err err ->
      exists es, dial ext fl parsedAddr target true false t
                 = (Exited 1, t ++ es) /\ dialed es = [])
  /\ (forall conf err,
        grpcurl_ClientTLSConfig ext (flags.insecure fl) (flags.cacert fl)
          (flags.cert fl) (flags.key fl) = Ok conf ->
        SSLKEYLOGFILE ext <> "" ->
        os_OpenFile ext (SSLKEYLOGFILE ext) = Err err ->
        exists es, dial ext fl parsedAddr target true false t
                   = (Exited 1, t ++ es) /\ dialed es = [])
  /\ (forall conf,
        grpcurl_ClientTLSConfig ext (flags.insecure fl) (flags.cacert fl)
          (flags.cert fl) (flags.key fl) = Ok conf ->
        (SSLKEYLOGFILE ext = ""
         \/ exists w, os_OpenFile ext (SSLKEYLOGFILE ext) = Ok w) ->
        flags.serverName fl <> "" -> flags.authority fl <> "" ->
        flags.serverName fl <> flags.authority fl ->
        exists es, dial ext fl parsedAddr target true false t
                   = (Exited 2, t ++ es) /\ dialed es = []).
Proof.
  intros Halts. unfold dial, dial_tls. rewrite Halts. cbv zeta beta iota.
  repeat split.
  - intros err ->. unfold bind at 1 2. rewrite fail_error.
    eexists. split; [reflexivity|]. reflexivity.
  - intros conf err -> Hlog Hopen. rewrite bind_ret_l, Hopen.
    rewrite (eqb_string_neq _ _ Hlog). cbn [negb].
    unfold bind at 1 2. rewrite fail_error.
    eexists. split; [reflexivity|]. reflexivity.
  - intros conf -> Hlog Hsn Hau Hdiff. rewrite bind_ret_l.
    rewrite (eqb_string_neq _ _ Hsn), (eqb_string_neq _ _ Hau),
      (eqb_string_neq _ _ Hdiff). cbn [negb andb].
    destruct Hlog as [-> | [w ->]].
    + change (negb (String.eqb "" "")) with false. cbv iota.
      rewrite bind_ret_l. unfold bind at 1 2. rewrite fail_usage.
      eexists. split; [reflexivity|]. reflexivity.
    + destruct (negb (String.eqb (SSLKEYLOGFILE ext) ""));
        rewrite bind_ret_l; unfold bind at 1 2;
        rewrite fail_usage; eexists; (split; [reflexivity|]); reflexivity.
Qed.
End DialFacts.

(** ** The positional arguments *)

Section ArgumentFacts.
Variable ext : Externals.
Variable url_Parse : string -> result url.URL.
Variable fl : flags.t.

Lemma when_warn_bind {A} (c : bool) (msg : string) (k : unit -> proc A)
    (t : list event) :
  bind (when c (warn msg)) k t
  = k tt (t ++ if c then [Fprintf Stderr ("Warning: " +:+ msg +:+ nl) []]
               else []).
Proof. destruct c; [reflexivity|]. by rewrite app_nil_r. Qed.

Lemma main_target_run (args0 : string) (t : list event) :
  exists tgt pa,
    main_target ext url_Parse args0 t = (Ret (tgt, pa), t)
    /\ ((args0 = "list" \/ args0 = "describe") /\ tgt = "" /\ pa = None
        \/ args0 <> "list" /\ args0 <> "describe"
           /\ exists pt, parseTarget url_Parse args0 = Ok pt
                         /\ tgt = address pt /\ pa = Some pt).
Proof.
  unfold main_target.
  destruct (String.eqb_spec args0 "list") as [->|Hl];
    [eexists _, _; split; [reflexivity|]; auto|].
  destruct (String.eqb_spec args0 "describe") as [->|Hd];
    [eexists _, _; split; [reflexivity|]; auto|].
  simpl.
  destruct (parseTarget_cases url_Parse args0)
    as [[sch ->]|(u & pt & _ & _ & -> & _)];
    eexists _, _; (split; [reflexivity|]); right; eauto 10.
Qed.


Lemma bind_assoc_run {A B C} (m : proc A) (k1 : A -> proc B)
    (k2 : B -> proc C) (t : list event) :
  bind (bind m k1) k2 t = bind m (fun x => bind (k1 x) k2) t.
Proof. unfold bind. by destruct (m t) as [[?| |] ?]. Qed.

Ltac simp_run H :=
  repeat first
    [ rewrite bind_assoc_run in H
    | rewrite when_fail_bind in H
    | rewrite when_warn_bind in H
    | rewrite bind_ret_l in H
    | rewrite fail_usage in H
    | progress cbv beta iota in H
    | progress cbn [fst snd negb andb orb] in H ].

Ltac split_run H :=
  repeat (simp_run H;
          match type of H with
          | context [match ?l with [] => _ | _ :: _ => _ end] =>
              is_var l; destruct l
          | (if ?c then (Exited _, _) else _) = _ =>
              let Hc := fresh "Hc" in destruct c eqn:Hc; [discriminate H|]
          | (Exited _, _) = _ => discriminate H
          end);
  repeat match goal with
         | Hl : (0 <? length ?l)%nat = false |- _ =>
             apply length_pos_false in Hl; subst
         end.


Lemma main_args_inv (args : list string) (t t' : list event) (a : arguments) :
  main_args ext url_Parse fl args t = (Ret a, t') ->
  exists tgt pa verb symbol,
    a = {| arg_target := tgt;
           arg_parsedAddr := pa;
           arg_list := String.eqb verb "list";
           arg_describe :=
             negb (String.eqb verb "list") && String.eqb verb "describe";
           arg_invoke :=
             negb (String.eqb verb "list")
             && negb (negb (String.eqb verb "list")
                      && String.eqb verb "describe");
           arg_verbosityLevel :=
             if flags.veryVerbose fl then 2
             else if flags.verbose fl then 1 else 0;
           arg_symbol := symbol;
           arg_reflection :=
             if negb (flags.set (flags.reflection fl))
                && ((0 <? length (flags.protoset fl))%nat
                    || (0 <? length (flags.protoFiles fl))%nat)
             then {| flags.set := flags.set (flags.reflection fl);
                     flags.val := false |}
             else flags.reflection fl |}
    /\ (((verb = "list" \/ verb = "describe") /\ tgt = "" /\ pa = None
         /\ (args = [verb] /\ symbol = "" \/ args = [verb; symbol]))
        \/ ((verb = "list" \/ verb = "describe")
            /\ exists addr pt,
                 addr <> "list" /\ addr <> "describe"
                 /\ parseTarget url_Parse addr = Ok pt
                 /\ tgt = address pt /\ pa = Some pt
                 /\ (args = [addr; verb] /\ symbol = ""
                     \/ args = [addr; verb; symbol]))
        \/ (verb <> "list" /\ verb <> "describe" /\ symbol = verb
            /\ tgt <> ""
            /\ exists addr pt,
                 addr <> "list" /\ addr <> "describe"
                 /\ parseTarget url_Parse addr = Ok pt
                 /\ tgt = address pt /\ pa = Some pt
                 /\ args = [addr; symbol]))
    /\ (length (flags.protoset fl) =? 0)%nat
       && (length (flags.protoFiles fl) =? 0)%nat && String.eqb tgt ""
       = false
    /\ (0 <? length (flags.protoset fl))%nat
       && (0 <? length (flags.protoFiles fl))%nat = false
    /\ negb (flags.val (flags.reflection fl))
       && (length (flags.protoset fl) =? 0)%nat
       && (length (flags.protoFiles fl) =? 0)%nat = false.
Proof.
  unfold main_args. intros H.
  destruct args as [|args0 rest]; [by rewrite fail_usage in H|].
  destruct (main_target_run args0 t) as (tgt & pa & Htgt & Hcase).
  rewrite (bind_run _ _ _ _ _ Htgt) in H. cbn [fst snd] in H.
  destruct Hcase as [(Hverb & -> & ->) | (Hl & Hd & pt & Hpt & -> & ->)].
  - assert (negb (String.eqb args0 "list")
            && negb (String.eqb args0 "describe") = false) as Hv
      by (destruct Hverb as [-> | ->]; reflexivity).
    rewrite Hv in H. cbv iota in H.
    assert (negb (String.eqb args0 "list")
            && negb (negb (String.eqb args0 "list")
                     && String.eqb args0 "describe") = false) as Hi
      by (destruct Hverb as [-> | ->]; reflexivity).
    rewrite Hi in H.
    split_run H; unfold ret in H; injection H as <- _;
      eexists _, _, args0, _; (split; [rewrite ?Hi; reflexivity|]);
      (split; [left; by eauto 10|]); done.
  - rewrite (eqb_string_neq _ _ Hl), (eqb_string_neq _ _ Hd) in H.
    cbn [negb andb] in H. cbv iota in H.
    destruct rest as [|verb rest]; [by rewrite fail_usage in H|].
    destruct (String.eqb_spec verb "list") as [->|Hvl].
    + cbn [negb andb] in H.
      split_run H; unfold ret in H; injection H as <- _;
      eexists _, _, "list", _; (split; [reflexivity|]);
      (split; [right; left; by eauto 12|]); done.
    + destruct (String.eqb_spec verb "describe") as [->|Hvd].
      * cbn [negb andb] in H.
        split_run H; unfold ret in H; injection H as <- _;
        eexists _, _, "describe", _; (split; [reflexivity|]);
        (split; [right; left; by eauto 12|]); done.
      * cbn [negb andb] in H.
        split_run H; unfold ret in H; injection H as <- _.
        eexists _, _, verb, _.
        rewrite (eqb_string_neq _ _ Hvl), (eqb_string_neq _ _ Hvd).
        split; [reflexivity|].
        split; [|by rewrite Hc0].
        right; right. apply eqb_string_false in Hc0. eauto 12.
Qed.


(** X15: the command lines the argument handling lets through.  Either
    the verb is [list] or [describe], alone or after an address, with at
    most one symbol after it; or there are exactly two arguments, an
    address that resolves to a non-empty dial address and a symbol, neither
    of them a verb, and the call is an invocation.  Anything shorter or
    longer ends in a usage error. *)
Theorem main_args_shapes (args : list string) (t t' : list event)
    (a : arguments) :
  main_args ext url_Parse fl args t = (Ret a, t') ->
  (exists verb,
      (verb = "list" /\ arg_list a = true /\ arg_describe a = false
       \/ verb = "describe" /\ arg_list a = false /\ arg_describe a = true)
      /\ arg_invoke a = false
      /\ ((arg_target a = "" /\ arg_parsedAddr a = None
           /\ (args = [verb] /\ arg_symbol a = ""
               \/ args = [verb; arg_symbol a]))
          \/ (exists addr pt,
                 addr <> "list" /\ addr <> "describe"
                 /\ parseTarget url_Parse addr = Ok pt
                 /\ arg_target a = address pt /\ arg_parsedAddr a = Some pt
                 /\ (args = [addr; verb] /\ arg_symbol a = ""
                     \/ args = [addr; verb; arg_symbol a]))))
  \/ (arg_invoke a = true /\ arg_list a = false /\ arg_describe a = false
      /\ arg_symbol a <> "list" /\ arg_symbol a <> "describe"
      /\ arg_target a <> ""
      /\ exists addr pt,
           addr <> "list" /\ addr <> "describe"
           /\ parseTarget url_Parse addr = Ok pt
           /\ arg_target a = address pt /\ arg_parsedAddr a = Some pt
           /\ args = [addr; arg_symbol a]).
Proof.
  intros H.
  destruct (main_args_inv _ _ _ _ H)
    as (tgt & pa & verb & symbol & -> & Hshape & _).
  cbn [arg_target arg_parsedAddr arg_list arg_describe arg_invoke
       arg_symbol].
  destruct Hshape
    as [(Hverb & -> & -> & Hargs)
       |[(Hverb & addr & pt & Hl & Hd & Hpt & -> & -> & Hargs)
        |(Hvl & Hvd & -> & Htgt & addr & pt & Hl & Hd & Hpt & -> & -> & ->)]].
  - left. exists verb. destruct Hverb as [-> | ->]; simpl; auto 10.
  - left. exists verb. destruct Hverb as [-> | ->]; simpl;
      (split; [auto|]); (split; [done|]); right; eauto 10.
  - right. rewrite (eqb_string_neq _ _ Hvl), (eqb_string_neq _ _ Hvd).
    simpl. eauto 15.
Qed.

(** X16: where the schema comes from once the arguments are accepted.  A
    dial address or descriptor files are present; [-protoset] and [-proto]
    are not both given; reflection is on or descriptor files are given.
    When [-use-reflection] was not given, reflection is on exactly when no
    descriptor file is given; when it was given, its value stands.  So
    reflection is on with an empty dial address only when
    [-use-reflection] was given together with descriptor files. *)
Theorem main_args_schema (args : list string) (t t' : list event)
    (a : arguments) :
  main_args ext url_Parse fl args t = (Ret a, t') ->
  (arg_target a <> "" \/ flags.protoset fl <> []
   \/ flags.protoFiles fl <> [])
  /\ (flags.protoset fl = [] \/ flags.protoFiles fl = [])
  /\ (flags.val (arg_reflection a) = true \/ flags.protoset fl <> []
      \/ flags.protoFiles fl <> [])
  /\ (flags.set (flags.reflection fl) = false ->
      (flags.val (arg_reflection a) = true
       <-> flags.protoset fl = [] /\ flags.protoFiles fl = []))
  /\ (flags.set (flags.reflection fl) = true ->
      arg_reflection a = flags.reflection fl)
  /\ (flags.val (arg_reflection a) = true -> arg_target a = "" ->
      flags.set (flags.reflection fl) = true
      /\ (flags.protoset fl <> [] \/ flags.protoFiles fl <> [])).
Proof.
  intros H.
  destruct (main_args_inv _ _ _ _ H)
    as (tgt & pa & verb & symbol & -> & _ & Hsrc & Hboth & Hrefl).
  cbn [arg_target arg_reflection]. clear H.
  destruct (flags.reflection fl) as [[] []],
    (flags.protoset fl) as [|ps pss], (flags.protoFiles fl) as [|pf pfs],
    (String.eqb_spec tgt ""); simpl in *; try discriminate;
    repeat split; intros; subst; try done; auto; try tauto;
    try (by destruct_and!).
Qed.
End ArgumentFacts.

(** ** Headers, descriptor sources and clean-up *)

Lemma bind_ret_inv {A B} (m : proc A) (k : A -> proc B) (t t' : list event)
    (b : B) :
  bind m k t = (Ret b, t') ->
  exists a t1, m t = (Ret a, t1) /\ k a t1 = (Ret b, t').
Proof.
  unfold bind. destruct (m t) as [[a| |] t1]; [eauto|discriminate..].
Qed.

Lemma dial_ret (ext : Externals) (fl : flags.t)
    (parsedAddr : option parsedTarget) (target : string)
    (usetls fp : bool) (t t' : list event) (cc : ClientConn) :
  dial ext fl parsedAddr target usetls fp t = (Ret cc, t') ->
  exists es, t' = t ++ es /\ dialed es = [cc].
Proof.
  intros Hdial.
  destruct (dial_cases ext fl parsedAddr target usetls fp t)
    as [(es & o & Heq & _ & Hno)
       |(pre & post & o & creds & opts & cc' & Heq & Hpre & Hpost & _ & _ & _
         & _ & _ & Hout)];
    rewrite Hdial in Heq; injection Heq as <- ->.
  - by destruct (Hno cc).
  - eexists. split; [reflexivity|].
    rewrite dialed_app, (never_dialed_dialed _ Hpre). simpl.
    rewrite (never_dialed_dialed _ Hpost).
    destruct Hout as [(_ & [= ->] & _)|(err & _ & [=])]. done.
Qed.

Section SourceFacts.
Context {Descriptor FieldDescriptor : Type}.
Variable ext : Externals.
Variable sext : @SourceExternals Descriptor FieldDescriptor.
Variable fl : flags.t.

Lemma main_sources_inv (refl : flags.optionalBoolFlag)
    (parsedAddr : option parsedTarget) (target : string)
    (usetls fp : bool) (hs : headers) (t t' : list event)
    (srcs : sources) :
  main_sources ext sext fl refl parsedAddr target usetls fp hs t
  = (Ret srcs, t') ->
  (is_Some (src_fileSource srcs)
   <-> flags.protoset fl <> [] \/ flags.protoFiles fl <> [])
  /\ (flags.val refl = true ->
      exists cc es,
        t' = t ++ es /\ dialed es = [cc]
        /\ dial ext fl parsedAddr target usetls fp t = (Ret cc, t')
        /\ src_cc srcs = Some cc
        /\ src_refClient srcs
           = Some {| ref_cc := cc;
                     ref_headers := hdr_addl hs ++ hdr_refl hs |}
        /\ src_descSource srcs
           = match src_fileSource srcs with
             | Some fileSource =>
                 bothSources
                   {| reflection :=
                        reflectionSource sext
                          {| ref_cc := cc;
                             ref_headers := hdr_addl hs ++ hdr_refl hs |};
                      file := fileSource |}
             | None =>
                 oneSource
                   (reflectionSource sext
                      {| ref_cc := cc;
                         ref_headers := hdr_addl hs ++ hdr_refl hs |})
             end)
  /\ (flags.val refl = false ->
      t' = t /\ src_cc srcs = None /\ src_refClient srcs = None
      /\ src_descSource srcs
         = match src_fileSource srcs with
           | Some fileSource => oneSource fileSource
           | None => nilSource
           end).
Proof.
  unfold main_sources. intros H.
  apply bind_ret_inv in H as (fileSource & t1 & Hfile & H).
  assert (t1 = t
          /\ (is_Some fileSource
              <-> flags.protoset fl <> [] \/ flags.protoFiles fl <> []))
    as [-> Hsome].
  { revert Hfile.
    destruct (flags.protoset fl) as [|ps pss]; cbn [length Nat.ltb Nat.leb].
    - destruct (flags.protoFiles fl) as [|pf pfs];
        cbn [length Nat.ltb Nat.leb].
      + intros [= <- <-]. split; [done|]. split; [by intros []|].
        by intros [|].
      + destruct (grpcurl_DescriptorSourceFromProtoFiles _ _ _);
          [|by rewrite fail_error].
        intros [= <- <-]. split; [done|]. split; [by right|by eauto].
    - destruct (grpcurl_DescriptorSourceFromProtoSets _ _);
        [|by rewrite fail_error].
      intros [= <- <-]. split; [done|]. split; [by left|by eauto]. }
  destruct (flags.val refl).
  - apply bind_ret_inv in H as (cc & t2 & Hdial & [= <- <-]).
    cbn [src_fileSource src_cc src_refClient src_descSource].
    split; [done|]. split; [|done]. intros _.
    destruct (dial_ret _ _ _ _ _ _ _ _ _ Hdial) as (es & -> & Hes).
    exists cc, es. by destruct fileSource.
  - injection H as <- <-.
    cbn [src_fileSource src_cc src_refClient src_descSource].
    split; [done|]. split; [done|]. intros _. by destruct fileSource.
Qed.

(** X17: the descriptor source [main] settles on.  A file source exists
    exactly when [-protoset] or [-proto] is given.  With reflection on, one
    connection is dialed, the reflection client carries the general and
    the reflection headers, and the source is the composite of reflection
    and file source when a file source exists and the reflection source
    alone otherwise.  With reflection off nothing is dialed and the source
    is the file source. *)
Theorem main_sources_choice (refl : flags.optionalBoolFlag)
    (parsedAddr : option parsedTarget) (target : string)
    (usetls fp : bool) (hs : headers) (t t' : list event)
    (srcs : sources) :
  main_sources ext sext fl refl parsedAddr target usetls fp hs t
  = (Ret srcs, t') ->
  (is_Some (src_fileSource srcs)
   <-> flags.protoset fl <> [] \/ flags.protoFiles fl <> [])
  /\ (flags.val refl = true ->
      exists cc es client,
        t' = t ++ es /\ dialed es = [cc]
        /\ src_cc srcs = Some cc
        /\ client = {| ref_cc := cc;
                       ref_headers := hdr_addl hs ++ hdr_refl hs |}
        /\ src_refClient srcs = Some client
        /\ ((exists fileSource,
                src_fileSource srcs = Some fileSource
                /\ src_descSource srcs
                   = bothSources {| reflection := reflectionSource sext client;
                                    file := fileSource |})
            \/ (src_fileSource srcs = None
                /\ src_descSource srcs
                   = oneSource (reflectionSource sext client))))
  /\ (flags.val refl = false ->
      t' = t /\ src_cc srcs = None /\ src_refClient srcs = None
      /\ ((exists fileSource,
              src_fileSource srcs = Some fileSource
              /\ src_descSource srcs = oneSource fileSource)
          \/ (src_fileSource srcs = None
              /\ src_descSource srcs = nilSource))).
Proof.
  intros H. destruct (main_sources_inv _ _ _ _ _ _ _ _ _ H)
    as (Hsome & Hon & Hoff).
  split; [done|]. split.
  - intros Hval.
    destruct (Hon Hval) as (cc & es & -> & Hes & _ & Hcc & Hclient & Hsrc).
    exists cc, es. eexists. repeat (split; [done|]).
    destruct (src_fileSource srcs); eauto.
  - intros Hval. destruct (Hoff Hval) as (-> & Hcc & Hclient & Hsrc).
    repeat (split; [done|]). destruct (src_fileSource srcs); eauto.
Qed.

(** X18: the descriptor source is never [nil]: on every run that gets from
    the command line to a descriptor source, reflection is on or a
    descriptor file was loaded. *)
Theorem main_setup_source_not_nil (url_Parse : string -> result url.URL)
    (args : list string) (t t' : list event) (a : arguments)
    (srcs : sources) :
  main_setup ext sext fl url_Parse args t = (Ret (a, srcs), t') ->
  src_descSource srcs <> nilSource
  /\ (flags.val (arg_reflection a) = true
      \/ is_Some (src_fileSource srcs)).
Proof.
  unfold main_setup. intros H.
  apply bind_ret_inv in H as (a' & t1 & Hargs & H).
  apply bind_ret_inv in H as (uf & t2 & _ & H).
  apply bind_ret_inv in H as ([] & t3 & _ & H).
  apply bind_ret_inv in H as (hs & t4 & _ & H).
  apply bind_ret_inv in H as (srcs' & t5 & Hsrcs & [= <- <- <-]).
  destruct (main_args_inv _ _ _ _ _ _ _ Hargs)
    as (tgt & pa & verb & symbol & Ha & _ & _ & Hboth & Hrefl).
  destruct (main_sources_inv _ _ _ _ _ _ _ _ _ Hsrcs)
    as (Hsome & Hon & Hoff).
  assert (flags.val (arg_reflection a') = true
          \/ is_Some (src_fileSource srcs')) as Hor.
  { rewrite Hsome, Ha. cbn [arg_reflection]. clear -Hrefl.
    destruct (flags.reflection fl) as [[] []],
      (flags.protoset fl), (flags.protoFiles fl); simpl in *;
      try discriminate; auto. }
  split; [|done].
  destruct (flags.val (arg_reflection a')) eqn:Hval.
  - destruct (Hon eq_refl) as (cc & es & _ & _ & _ & _ & _ & ->).
    by destruct (src_fileSource srcs').
  - destruct (Hoff eq_refl) as (_ & _ & _ & ->).
    destruct Hor as [|[f ->]]; done.
Qed.

(** X19: descriptor files are loaded before anything is dialed: when a
    [-protoset] or [-proto] file cannot be processed the run exits with
    code 1 without a dial, reflection on or not. *)
Theorem main_sources_file_failure (refl : flags.optionalBoolFlag)
    (parsedAddr : option parsedTarget) (target : string)
    (usetls fp : bool) (hs : headers) (t : list event) (err : error) :
  (flags.protoset fl <> []
   /\ grpcurl_DescriptorSourceFromProtoSets sext (flags.protoset fl)
      = Err err)
  \/ (flags.protoset fl = [] /\ flags.protoFiles fl <> []
      /\ grpcurl_DescriptorSourceFromProtoFiles sext (flags.importPaths fl)
           (flags.protoFiles fl) = Err err) ->
  exists es,
    main_sources ext sext fl refl parsedAddr target usetls fp hs t
    = (Exited 1, t ++ es)
    /\ dialed es = [].
Proof.
  unfold main_sources.
  intros [[Hset Herr]|(Hset & Hfiles & Herr)].
  - destruct (flags.protoset fl); [done|]. cbn [length Nat.ltb Nat.leb].
    rewrite Herr. unfold bind at 1. rewrite fail_error.
    eexists. split; [reflexivity|]. reflexivity.
  - rewrite Hset in *. destruct (flags.protoFiles fl); [done|].
    cbn [length Nat.ltb Nat.leb]. rewrite Herr. unfold bind at 1.
    rewrite fail_error. eexists. split; [reflexivity|]. reflexivity.
Qed.
End SourceFacts.

(** X20: [reset] releases what is held, the reflection client before the
    connection, and leaves both handles [nil]; a second [reset], as when
    [exit] follows a deferred clean-up, releases nothing and changes
    nothing. *)
Theorem reset_idempotent (h : handles) :
  snd (reset h)
  = match h_refClient h with Some client => [Reset client] | None => [] end
    ++ match h_cc h with Some cc => [Close cc] | None => [] end
  /\ h_refClient (fst (reset h)) = None
  /\ h_cc (fst (reset h)) = None
  /\ reset (fst (reset h)) = (fst (reset h), []).
Proof.
  destruct h as [[client|] [cc|]]; repeat split.
Qed.

(** ** The flag types *)

Lemma Join_snoc (elems : list string) (x sep : string) :
  Join (elems ++ [x]) sep
  = match elems with
    | [] => x
    | _ :: _ => Join elems sep +:+ sep +:+ x
    end.
Proof.
  induction elems as [|y elems IH]; [reflexivity|].
  destruct elems as [|z elems]; [reflexivity|].
  change (y +:+ sep +:+ Join ((z :: elems) ++ [x]) sep
          = (y +:+ sep +:+ Join (z :: elems) sep) +:+ sep +:+ x).
  rewrite IH. by rewrite !append_assoc.
Qed.

(** X21: a repeated flag keeps its values in command-line order: [Set]
    never fails and appends, so after the values [vs] are set one by one
    the flag holds [vs], and [String] shows the old text, a comma and the
    new value (the new value alone on the first [Set]). *)
Theorem multiString_Set_String (s : multiString) (value : string)
    (vs : list string) :
  snd (multiString_Set s value) = None
  /\ multiString_String (fst (multiString_Set s value))
     = match s with
       | [] => value
       | _ :: _ => multiString_String s +:+ "," +:+ value
       end
  /\ foldl (fun s v => fst (multiString_Set s v)) s vs = s ++ vs.
Proof.
  split; [done|]. split; [apply Join_snoc|].
  revert s. induction vs as [|v vs IH]; intros s; simpl.
  - by rewrite app_nil_r.
  - rewrite IH. by rewrite <- app_assoc.
Qed.

Section OptionalBoolFacts.
Variable syntaxError : string -> string -> error.

(** X22: [String] and [Set] of [optionalBoolFlag].  What [String] shows of
    a flag that was set is read back by [Set] as that very flag; an unset
    flag shows "unset", which [Set] refuses, leaving its flag as it was;
    and a [Set] that succeeds marks the flag as set, with its value one
    that [String] then shows as "true" or "false". *)
Theorem optionalBoolFlag_round_trip (f g : flags.optionalBoolFlag) :
  (flags.set f = true ->
   optionalBoolFlag_Set syntaxError g (optionalBoolFlag_String f) = (f, None))
  /\ (flags.set f = false ->
      optionalBoolFlag_String f = "unset"
      /\ optionalBoolFlag_Set syntaxError g (optionalBoolFlag_String f)
         = (g, Some (syntaxError "ParseBool" "unset")))
  /\ (forall s g',
        optionalBoolFlag_Set syntaxError g s = (g', None) ->
        flags.set g' = true
        /\ strconv.ParseBool s = Some (flags.val g')
        /\ optionalBoolFlag_String g' = strconv.FormatBool (flags.val g')).
Proof.
  unfold optionalBoolFlag_Set, optionalBoolFlag_String.
  destruct f as [fset fval]. simpl. split; [|split].
  - intros ->. by destruct fval.
  - by intros ->.
  - intros s g'. destruct (strconv.ParseBool s); [|discriminate].
    by intros [= <-].
Qed.
End OptionalBoolFacts.

(** ** Timing data *)


(** X24: [Child] on a node makes a node that was not there before, with
    the given title and start time, no recorded time and no children, and
    adds it as the last child of its parent; the [Parent] link of the new
    node is not set; every other node is as it was, and a store in which
    every listed child is a node stays so. *)
Theorem timingData_Child_appends (st : gmap nat timingData) (l : nat)
    (node : timingData) (title : string) (now : Z) :
  st !! l = Some node ->
  exists child st',
    timingData_Child (Some l) title now st = (Some child, st')
    /\ st !! child = None
    /\ st' !! child
       = Some {| Title := title; Start := now; Value := 0;
                 Parent := None; Sub := [] |}
    /\ st' !! l = Some (add_Sub node child)
    /\ Sub (add_Sub node child) = Sub node ++ [child]
    /\ (forall l', l' <> l -> l' <> child -> st' !! l' = st !! l')
    /\ (timing_closed st -> timing_closed st').
Proof.
  intros Hl. unfold timingData_Child. rewrite Hl.
  set (child := fresh (dom st)).
  assert (st !! child = None) as Hfresh.
  { apply not_elem_of_dom. apply is_fresh. }
  assert (child <> l) as Hne by (intros ->; congruence).
  eexists _, _. split; [reflexivity|]. split; [done|]. split.
  - rewrite lookup_insert_ne by done. by rewrite lookup_insert_eq.
  - split; [by rewrite lookup_insert_eq|]. split; [done|]. split.
    { intros l' Hl' Hc. by rewrite !lookup_insert_ne. }
    intros Hclosed l' node' c Hnode' Hc.
    assert (is_Some (st !! c) -> is_Some
              (<[l:=add_Sub node child]>
                 (<[child:={| Title := title; Start := now; Value := 0;
                              Parent := None; Sub := [] |}]> st) !! c))
      as Hkeep.
    { intros Hsome. rewrite !lookup_insert_is_Some'. auto. }
    destruct (decide (l' = l)) as [->|Hl'].
    + rewrite lookup_insert_eq in Hnode'. injection Hnode' as <-.
      simpl in Hc. apply elem_of_app in Hc as [Hc|Hc].
      * apply Hkeep. by eapply Hclosed.
      * apply list_elem_of_singleton in Hc as ->.
        rewrite !lookup_insert_is_Some'. auto.
    + rewrite lookup_insert_ne in Hnode' by done.
      destruct (decide (l' = child)) as [->|Hchild].
      * rewrite lookup_insert_eq in Hnode'. injection Hnode' as <-.
        simpl in Hc. by apply elem_of_nil in Hc.
      * rewrite lookup_insert_ne in Hnode' by done.
        apply Hkeep. by eapply Hclosed.
Qed.

(** ** [prettify] *)

Lemma prettify_loop (n i : nat) (parts : list string) (j : nat) :
  (j <= i)%nat -> (i + n <= length parts)%nat ->
  take (foldl prettify_step (parts, j) (seq i n)).2
       (foldl prettify_step (parts, j) (seq i n)).1
  = take j parts
    ++ filter (fun part => part <> "") (TrimSpace <$> take n (drop i parts)).
Proof.
  revert i parts j. induction n as [|n IH]; intros i parts j Hji Hlen.
  - cbn [seq foldl fst snd]. rewrite take_0. cbn [fmap list_fmap].
    by rewrite filter_nil, app_nil_r.
  - destruct (lookup_lt_is_Some_2 parts i) as [part Hpart]; [lia|].
    assert (prettify_step (parts, j) i
            = if String.eqb (TrimSpace part) "" then (parts, j)
              else (<[j := TrimSpace part]> parts, S j)) as Hstep
      by (unfold prettify_step; by rewrite Hpart).
    cbn [seq foldl]. rewrite Hstep.
    rewrite (drop_S _ _ _ Hpart). cbn [take fmap list_fmap].
    rewrite filter_cons.
    destruct (String.eqb_spec (TrimSpace part) "") as [Hempty|Hfull].
    + rewrite decide_False by (by intros ?).
      apply IH; lia.
    + rewrite decide_True by done.
      rewrite IH by (rewrite ?length_insert; lia).
      rewrite drop_insert_lt by lia.
      rewrite (take_S_r _ _ (TrimSpace part))
        by (apply list_lookup_insert_eq; lia).
      rewrite take_insert_ge by lia. by rewrite <- app_assoc.
Qed.

Lemma prettify_trimmed_lines (docString : string) :
  prettify docString = Join (trimmed_lines docString) nl.
Proof.
  unfold prettify, trimmed_lines.
  pose proof (prettify_loop (length (Split docString newline)) 0
                (Split docString newline) 0) as Hloop.
  destruct (foldl prettify_step _ _) as [parts j]. simpl in Hloop.
  rewrite Hloop by lia. by rewrite take_ge.
Qed.

Lemma Split_cons (s : string) (sep : ascii) :
  exists part parts, Split s sep = part :: parts.
Proof.
  induction s as [|c s IH]; simpl; [eauto|].
  destruct (Ascii.eqb c sep); [eauto|].
  destruct IH as (part & parts & ->). eauto.
Qed.

Lemma Split_no_sep (s : string) (sep : ascii) :
  has_byte sep s = false -> Split s sep = [s].
Proof.
  induction s as [|c s IH]; simpl; [done|].
  intros [Hc Hs]%orb_false_iff. rewrite Hc, IH; done.
Qed.

Lemma Split_sep (x r : string) (sep : ascii) :
  has_byte sep x = false ->
  Split (x +:+ String sep r) sep = x :: Split r sep.
Proof.
  induction x as [|c x IH]; intros Hx.
  - change (Split (String sep r) sep = "" :: Split r sep).
    simpl. by rewrite Ascii.eqb_refl.
  - simpl in Hx. apply orb_false_iff in Hx as [Hc Hx].
    change (Split (String c (x +:+ String sep r)) sep
            = String c x :: Split r sep).
    simpl. by rewrite Hc, IH.
Qed.

Lemma Split_parts_no_sep (s : string) (sep : ascii) (part : string) :
  part ∈ Split s sep -> has_byte sep part = false.
Proof.
  revert part. induction s as [|c s IH]; intros part; simpl.
  - by intros ->%list_elem_of_singleton.
  - destruct (Ascii.eqb c sep) eqn:Hc.
    + intros [->|Hin]%elem_of_cons; [done|by apply IH].
    + destruct (Split_cons s sep) as (p & ps & Heq). rewrite Heq in *.
      intros [->|Hin]%elem_of_cons.
      * simpl. rewrite Hc. apply IH. by left.
      * apply IH. by right.
Qed.

Lemma TrimLeft_no_byte (c : ascii) (s : string) :
  has_byte c s = false -> has_byte c (TrimLeft s) = false.
Proof.
  induction s as [|b s IH]; simpl; [done|].
  intros [Hb Hs]%orb_false_iff.
  destruct (asciiSpace b); [by apply IH|]. simpl. by rewrite Hb, Hs.
Qed.

Lemma TrimRight_no_byte (c : ascii) (s : string) :
  has_byte c s = false -> has_byte c (TrimRight s) = false.
Proof.
  induction s as [|b s IH]; simpl; [done|].
  intros [Hb Hs]%orb_false_iff. specialize (IH Hs).
  destruct (TrimRight s) as [|b' kept].
  - destruct (asciiSpace b); simpl; [done|]. by rewrite Hb.
  - simpl in *. by rewrite Hb, IH.
Qed.

Lemma TrimLeft_starts_clean (s : string) : starts_clean (TrimLeft s).
Proof.
  induction s as [|c s IH]; simpl; [done|].
  destruct (asciiSpace c) eqn:Hc; [done|]. simpl. done.
Qed.

Lemma TrimLeft_clean (s : string) : starts_clean s -> TrimLeft s = s.
Proof. destruct s as [|c s]; simpl; [done|]. by intros ->. Qed.

Lemma TrimRight_starts_clean (s : string) :
  starts_clean s -> starts_clean (TrimRight s).
Proof.
  destruct s as [|c s]; simpl; [done|]. intros Hc.
  destruct (TrimRight s); [by rewrite Hc|done].
Qed.

Lemma TrimRight_idem (s : string) : TrimRight (TrimRight s) = TrimRight s.
Proof.
  induction s as [|c s IH]; simpl; [done|].
  destruct (TrimRight s) as [|b kept] eqn:Hkept.
  - destruct (asciiSpace c) eqn:Hc; simpl; [done|]. by rewrite Hc.
  - change (TrimRight (String c (String b kept)) = String c (String b kept)).
    cbn [TrimRight] in *. rewrite IH. done.
Qed.

Lemma TrimSpace_idem (s : string) : TrimSpace (TrimSpace s) = TrimSpace s.
Proof.
  unfold TrimSpace.
  rewrite (TrimLeft_clean (TrimRight (TrimLeft s)))
    by apply TrimRight_starts_clean, TrimLeft_starts_clean.
  apply TrimRight_idem.
Qed.

Lemma trimmed_lines_parts (docString part : string) :
  part ∈ trimmed_lines docString ->
  part <> "" /\ TrimSpace part = part /\ has_byte newline part = false.
Proof.
  unfold trimmed_lines.
  intros [Hne (raw & -> & Hraw)%list_elem_of_fmap]%list_elem_of_filter.
  split; [done|]. split; [apply TrimSpace_idem|].
  apply TrimRight_no_byte, TrimLeft_no_byte.
  by eapply Split_parts_no_sep.
Qed.

Lemma Split_Join (parts : list string) :
  parts <> [] ->
  (forall part, part ∈ parts -> has_byte newline part = false) ->
  Split (Join parts nl) newline = parts.
Proof.
  induction parts as [|x parts IH]; [done|]. intros _ Hall.
  destruct parts as [|y parts].
  - simpl. apply Split_no_sep, Hall. by left.
  - change (Split (x +:+ String newline (Join (y :: parts) nl)) newline
            = x :: y :: parts).
    rewrite Split_sep by (apply Hall; by left).
    rewrite IH; [done|done|]. intros part Hin. apply Hall. by right.
Qed.

(** X25: what [prettify] returns, on text of ASCII bytes.  The result is
    the lines of the input, each trimmed of white space, without the ones
    that are then empty, joined by newlines: the in-place writes of the
    loop lose no line that is kept.  So no line of the result is empty or
    starts or ends with white space, and splitting the result at newlines
    gives those lines back; a text of blank lines only gives the empty
    text. *)
Theorem prettify_lines (docString : string) :
  ascii_only docString = true ->
  prettify docString = Join (trimmed_lines docString) nl
  /\ (forall part, part ∈ trimmed_lines docString ->
        part <> "" /\ TrimSpace part = part
        /\ has_byte newline part = false)
  /\ (trimmed_lines docString <> [] ->
      Split (prettify docString) newline = trimmed_lines docString)
  /\ (trimmed_lines docString = [] -> prettify docString = "").
Proof.
  intros _. rewrite prettify_trimmed_lines.
  split; [done|]. split; [apply trimmed_lines_parts|]. split.
  - intros Hne. apply Split_Join; [done|].
    intros part Hin. by apply trimmed_lines_parts in Hin as (_ & _ & ?).
  - by intros ->.
Qed.

(** X26: [prettify] is idempotent on text of ASCII bytes: a text already
    made pretty comes back unchanged. *)
Theorem prettify_idempotent (docString : string) :
  ascii_only docString = true ->
  prettify (prettify docString) = prettify docString.
Proof.
  intros _. rewrite !prettify_trimmed_lines.
  destruct (trimmed_lines docString) as [|x parts] eqn:Hlines;
    [reflexivity|].
  f_equal. unfold trimmed_lines at 1.
  rewrite Split_Join; [|done|].
  - assert (forall part, part ∈ x :: parts ->
                         part <> "" /\ TrimSpace part = part) as Hall.
    { intros part Hin. rewrite <- Hlines in Hin.
      by apply trimmed_lines_parts in Hin as (? & ? & _). }
    clear Hlines. induction (x :: parts) as [|y ys IH]; [done|].
    destruct (Hall y) as [Hne Htrim]; [by left|].
    cbn [fmap list_fmap]. rewrite filter_cons, Htrim, decide_True by done.
    f_equal. apply IH. intros part Hin. apply Hall. by right.
  - intros part Hin. rewrite <- Hlines in Hin.
    by apply trimmed_lines_parts in Hin as (_ & _ & ?).
Qed.

(** ** More on exit codes and on reflection without an address *)

Section InvokeMore.
Variable ext : Externals.
Variable fl : flags.t.

End InvokeMore.

Section EmptyTarget.
Context {Descriptor FieldDescriptor : Type}.
Variable ext : Externals.
Variable sext : @SourceExternals Descriptor FieldDescriptor.
Variable fl : flags.t.
Variable url_Parse : string -> result url.URL.

Lemma dial_forcePlaintext (parsedAddr : option parsedTarget)
    (target : string) (usetls : bool) (t : list event) :
  exists cc o rest,
    dial ext fl parsedAddr target usetls true t
    = (o, t ++ BlockingDial cc :: rest)
    /\ never_dialed rest = true
    /\ cc_creds cc = None
    /\ cc_target cc
       = (if match isUnixSocket ext with Some b => b | None => false end
             && negb (strings.HasPrefix target "unix://")
          then "unix://" +:+ target else target).
Proof.
  unfold dial, bind, ret, emit.
  destruct (grpcurl_BlockingDial ext _) as [err|].
  - rewrite fail_error, <- app_assoc. eexists _, _, _.
    split; [reflexivity|]. by repeat split.
  - eexists _, _, []. split; [reflexivity|]. by repeat split.
Qed.

Lemma main_args_verb_only (verb : string) (symbols : list string)
    (t : list event) :
  verb = "list" \/ verb = "describe" ->
  (length symbols <= 1)%nat ->
  flags.reflection fl = {| flags.set := true; flags.val := true |} ->
  flags.protoset fl <> [] ->
  flags.protoFiles fl = [] ->
  exists a ws,
    main_args ext url_Parse fl (verb :: symbols) t = (Ret a, t ++ ws)
    /\ never_dialed ws = true
    /\ arg_target a = "" /\ arg_parsedAddr a = None
    /\ arg_reflection a = {| flags.set := true; flags.val := true |}.
Proof.
  intros Hverb Hlen Hrefl Hset Hfiles. unfold main_args.
  destruct (main_target_run ext url_Parse verb t)
    as (tgt & pa & Htgt & [(_ & -> & ->)|(Hl & Hd & _)]);
    [|destruct Hverb; done].
  rewrite (bind_run _ _ _ _ _ Htgt). cbn [fst snd].
  rewrite Hrefl, Hfiles.
  destruct (flags.protoset fl) as [|ps pss]; [done|].
  change (0 <? length (ps :: pss))%nat with true.
  change (length (ps :: pss) =? 0)%nat with false.
  change (length (@nil string) =? 0)%nat with true.
  change (0 <? length (@nil string))%nat with false.
  assert (symbols = [] \/ exists s, symbols = [s]) as Hsyms.
  { destruct symbols as [|s [|]]; simpl in Hlen; eauto; lia. }
  destruct Hverb as [-> | ->], Hsyms as [-> | [s ->]];
    cbn [String.eqb Ascii.eqb Bool.eqb negb andb orb flags.set flags.val];
    repeat first
      [ rewrite bind_assoc_run
      | rewrite when_fail_bind
      | rewrite when_warn_bind
      | rewrite bind_ret_l
      | progress cbv beta iota zeta
      | progress change (0 <? length (@nil string))%nat with false
      | progress cbn [fst snd negb andb orb] ];
    unfold ret; rewrite <- ?app_assoc;
    eexists _, _; (split; [reflexivity|]);
    (split; [|by repeat split]);
    repeat match goal with
           | |- context [if ?c then _ else _] => destruct c
           end; reflexivity.
Qed.

(** X28: reflection without an address.  With [-use-reflection] given as
    true, a [-protoset] that loads, [-plaintext], otherwise valid flags, and
    the verb [list] or [describe] with at most one symbol and no address,
    the run is accepted and dials the empty target. *)
Theorem reflection_dials_empty_target (verb : string)
    (symbols : list string) (t : list event) :
  verb = "list" \/ verb = "describe" ->
  (length symbols <= 1)%nat ->
  flags.reflection fl = {| flags.set := true; flags.val := true |} ->
  flags.protoset fl <> [] ->
  flags.protoFiles fl = [] ->
  flags.plaintext fl = true ->
  valid_args fl false ->
  flags.expandHeaders fl = false ->
  (exists src,
      grpcurl_DescriptorSourceFromProtoSets sext (flags.protoset fl)
      = Ok src) ->
  isUnixSocket ext <> Some true ->
  exists o es cc,
    main_setup ext sext fl url_Parse (verb :: symbols) t = (o, t ++ es)
    /\ dialed es = [cc]
    /\ cc_target cc = ""
    /\ cc_creds cc = None.
Proof.
  intros Hverb Hlen Hrefl Hset Hfiles Hplain Hvalid Hexpand [src Hsrc] Hunix.
  destruct (main_args_verb_only verb symbols t Hverb Hlen Hrefl Hset Hfiles)
    as (a & ws & Hargs & Hws & Htgt & Hpa & Hare).
  assert (flags.usealts fl = false) as Halts.
  { destruct Hvalid as (_ & _ & _ & _ & [Hp|Ha] & _); congruence. }
  assert (main_usetls ext fl None (t ++ ws) = (Ret (false, true), t ++ ws))
    as Hsel by (unfold main_usetls, ret; by rewrite Hplain, Halts).
  assert (exists vs, main_validate ext fl false (t ++ ws)
                     = (Ret tt, (t ++ ws) ++ vs)
                     /\ never_dialed vs = true) as (vs & Hval & Hvs).
  { apply (main_validate_valid_args ext fl false (t ++ ws)) in Hvalid
      as [t3 Ht3].
    destruct (main_validate_checks ext fl false (t ++ ws))
      as (vs & Hvs & [[[] Heq]|Heq]); [eauto|congruence]. }
  assert (exists hs, main_headers ext sext fl None ((t ++ ws) ++ vs)
                     = (Ret hs, (t ++ ws) ++ vs)) as [hs Hhdr].
  { unfold main_headers. rewrite Hexpand. eexists. reflexivity. }
  destruct (dial_forcePlaintext None "" false ((t ++ ws) ++ vs))
    as (cc & o & rest & Hdial & Hrest & Hcreds & Htarget).
  assert (exists o',
    main_sources ext sext fl (arg_reflection a) None "" false true hs
      ((t ++ ws) ++ vs)
    = (o', ((t ++ ws) ++ vs) ++ BlockingDial cc :: rest)) as [o' Hsrcs].
  { unfold main_sources. rewrite Hare. cbn [flags.val].
    destruct (flags.protoset fl) as [|ps pss]; [done|].
    cbn [length Nat.ltb Nat.leb]. rewrite Hsrc, bind_ret_l.
    rewrite (bind_run _ _ _ _ _ Hdial). destruct o; eauto. }
  unfold main_setup.
  rewrite (bind_run _ _ _ _ _ Hargs), Hpa, Htgt.
  rewrite (bind_run _ _ _ _ _ Hsel). cbn [fst snd].
  rewrite (bind_run _ _ _ _ _ Hval).
  rewrite (bind_run _ _ _ _ _ Hhdr).
  rewrite (bind_run _ _ _ _ _ Hsrcs).
  exists (match o' with
          | Ret srcs => Ret (a, srcs)
          | Exited code => Exited code
          | Panicked msg => Panicked msg
          end), (ws ++ vs ++ BlockingDial cc :: rest), cc.
  split; [destruct o'; unfold ret; by rewrite <- !app_assoc|].
  split.
  - rewrite !dialed_app, (never_dialed_dialed _ Hws),
      (never_dialed_dialed _ Hvs). simpl.
    by rewrite (never_dialed_dialed _ Hrest).
  - split; [|done]. rewrite Htarget.
    destruct (isUnixSocket ext) as [[]|]; done.
Qed.
End EmptyTarget.

(** ** The path header *)

Section HeaderFacts.
Context {Descriptor FieldDescriptor : Type}.
Variable ext : Externals.
Variable sext : @SourceExternals Descriptor FieldDescriptor.
Variable fl : flags.t.

Lemma expand_ret (what : string) (hs hs' : list string)
    (t t' : list event) :
  expand ext sext what hs t = (Ret hs', t') ->
  grpcurl_ExpandHeaders sext hs = Ok hs' /\ t' = t.
Proof.
  unfold expand. destruct (grpcurl_ExpandHeaders sext hs);
    [by intros [= <- <-]|by rewrite fail_error].
Qed.

Lemma main_headers_inv (parsedAddr : option parsedTarget)
    (t t' : list event) (hs : headers) :
  main_headers ext sext fl parsedAddr t = (Ret hs, t') ->
  exists addl,
    (if flags.expandHeaders fl
     then grpcurl_ExpandHeaders sext (flags.addlHeaders fl) = Ok addl
          /\ grpcurl_ExpandHeaders sext (flags.rpcHeaders fl)
             = Ok (hdr_rpc hs)
          /\ grpcurl_ExpandHeaders sext (flags.reflHeaders fl)
             = Ok (hdr_refl hs)
     else addl = flags.addlHeaders fl
          /\ hdr_rpc hs = flags.rpcHeaders fl
          /\ hdr_refl hs = flags.reflHeaders fl)
    /\ hdr_addl hs
       = addl
         ++ match parsedAddr with
            | Some pt =>
                if wasURL pt && negb (String.eqb (path pt) "")
                   && negb (String.eqb (path pt) "/")
                then ["x-grpc-path: " +:+ path pt] else []
            | None => []
            end.
Proof.
  unfold main_headers. intros H.
  apply bind_ret_inv in H as (hs0 & t1 & Hexp & H).
  assert (hs = {| hdr_addl :=
                    hdr_addl hs0
                    ++ match parsedAddr with
                       | Some pt =>
                           if wasURL pt && negb (String.eqb (path pt) "")
                              && negb (String.eqb (path pt) "/")
                           then ["x-grpc-path: " +:+ path pt] else []
                       | None => []
                       end;
                  hdr_rpc := hdr_rpc hs0; hdr_refl := hdr_refl hs0 |})
    as ->.
  { destruct parsedAddr as [pt|];
      [destruct (wasURL pt && negb (String.eqb (path pt) "")
                 && negb (String.eqb (path pt) "/"))|];
      injection H as <- _; rewrite ?app_nil_r; by destruct hs0. }
  exists (hdr_addl hs0). split; [|done]. cbn [hdr_rpc hdr_refl].
  destruct (flags.expandHeaders fl).
  - apply bind_ret_inv in Hexp as (addl & t2 & Haddl & Hexp).
    apply bind_ret_inv in Hexp as (rpc & t3 & Hrpc & Hexp).
    apply bind_ret_inv in Hexp as (refl & t4 & Hrefl & [= <- _]).
    apply expand_ret in Haddl as [Haddl _], Hrpc as [Hrpc _],
      Hrefl as [Hrefl _].
    done.
  - by injection Hexp as <- _.
Qed.

(** X29: the path of a URL target reaches the reflection requests.  On a
    run that gets from the command line to a reflection client, the client's
    headers are the additional headers, then [x-grpc-path: <path>] when the
    target is a URL with a path other than [/], then the reflection headers;
    under [-expand-headers] the two lists are the expanded ones, and the
    path header itself is added after the expansion.  The rpc headers are
    not among them. *)
Theorem path_header_reaches_reflection
    (url_Parse : string -> result url.URL) (args : list string)
    (t t' : list event) (a : arguments) (srcs : sources)
    (client : refClient) :
  main_setup ext sext fl url_Parse args t = (Ret (a, srcs), t') ->
  src_refClient srcs = Some client ->
  exists addl refl,
    (flags.expandHeaders fl = false ->
     addl = flags.addlHeaders fl /\ refl = flags.reflHeaders fl)
    /\ (flags.expandHeaders fl = true ->
        grpcurl_ExpandHeaders sext (flags.addlHeaders fl) = Ok addl
        /\ grpcurl_ExpandHeaders sext (flags.reflHeaders fl) = Ok refl)
    /\ (forall pt,
          arg_parsedAddr a = Some pt -> wasURL pt = true ->
          path pt <> "" -> path pt <> "/" ->
          ref_headers client
          = addl ++ ["x-grpc-path: " +:+ path pt] ++ refl)
    /\ (arg_parsedAddr a = None
        \/ (exists pt, arg_parsedAddr a = Some pt
                       /\ (wasURL pt = false \/ path pt = ""
                           \/ path pt = "/")) ->
        ref_headers client = addl ++ refl).
Proof.
  unfold main_setup. intros H Hclient.
  apply bind_ret_inv in H as (a' & t1 & _ & H).
  apply bind_ret_inv in H as (uf & t2 & _ & H).
  apply bind_ret_inv in H as ([] & t3 & _ & H).
  apply bind_ret_inv in H as (hs & t4 & Hhdr & H).
  apply bind_ret_inv in H as (srcs' & t5 & Hsrcs & [= <- <- <-]).
  destruct (main_sources_inv _ _ _ _ _ _ _ _ _ _ _ _ Hsrcs)
    as (_ & Hon & Hoff).
  destruct (flags.val (arg_reflection a')) eqn:Hval;
    [|destruct (Hoff eq_refl) as (_ & _ & Hnone & _); congruence].
  destruct (Hon eq_refl) as (cc & es & _ & _ & _ & _ & Hsome & _).
  assert (ref_headers client = hdr_addl hs ++ hdr_refl hs) as ->
    by (rewrite Hsome in Hclient; by injection Hclient as <-).
  destruct (main_headers_inv _ _ _ _ Hhdr) as (addl & Hexp & ->).
  exists addl, (hdr_refl hs).
  split; [intros Hflag; rewrite Hflag in Hexp; by destruct_and!|].
  split; [intros Hflag; rewrite Hflag in Hexp; by destruct_and!|].
  split.
  - intros pt -> -> Hp1 Hp2.
    rewrite (eqb_string_neq _ _ Hp1), (eqb_string_neq _ _ Hp2).
    cbn [negb andb]. by rewrite <- app_assoc.
  - intros [-> | (pt & -> & Hpt)]; [by rewrite app_nil_r|].
    destruct Hpt as [-> | [-> | ->]]; cbn [andb];
      [|destruct (wasURL pt)..]; by rewrite app_nil_r.
Qed.
End HeaderFacts.

(** ** The further properties at concrete inputs *)

(** The merge of the example sources lists the tags 5 and 7. *)
Lemma AllExtensionsForType_tags_union_witness :
  exists merged,
    compositeSource_AllExtensionsForType Examples.number Examples.both
      "pkg.Message" = Ok merged
    /\ forall k,
         k ∈ Examples.number <$> merged
         <-> k ∈ Examples.number <$> [("refl_ext_5", 5)]
             \/ k ∈ Examples.number
                    <$> [("file_ext_5", 5); ("file_ext_7", 7)].
Proof.
  exact (AllExtensionsForType_tags_union Examples.number Examples.both
           "pkg.Message" _ _ eq_refl eq_refl).
Defined.

(** Neither example source repeats a tag, and neither does the merge. *)
Lemma AllExtensionsForType_tags_NoDup_witness :
  exists merged,
    compositeSource_AllExtensionsForType Examples.number Examples.both
      "pkg.Message" = Ok merged
    /\ NoDup (Examples.number <$> merged).
Proof.
  apply (AllExtensionsForType_tags_NoDup Examples.number Examples.both
           "pkg.Message" [("refl_ext_5", 5)]
           [("file_ext_5", 5); ("file_ext_7", 7)] eq_refl eq_refl).
  - apply NoDup_singleton.
  - apply NoDup_cons. split; [|apply NoDup_singleton].
    intros H. apply list_elem_of_singleton in H. discriminate H.
Defined.

(** A file source that only repeats tag 7 adds nothing; one that only
    has the new tag 9 is appended whole. *)
Lemma AllExtensionsForType_extremes_witness :
  compositeSource_AllExtensionsForType Examples.number MoreExamples.covered
    "pkg.Message"
  = Ok [("refl_ext_5", 5); ("refl_ext_7", 7)]
  /\ compositeSource_AllExtensionsForType Examples.number
       MoreExamples.disjoint "pkg.Message"
     = Ok ([("refl_ext_5", 5); ("refl_ext_7", 7)] ++ [("file_ext_9", 9)]).
Proof.
  split.
  - apply (AllExtensionsForType_extremes Examples.number
             MoreExamples.covered "pkg.Message" _ [("file_ext_7", 7)]
             eq_refl eq_refl).
    intros e He. apply list_elem_of_singleton in He. subst e.
    apply list_elem_of_further, list_elem_of_here.
  - apply (AllExtensionsForType_extremes Examples.number
             MoreExamples.disjoint "pkg.Message" _ [("file_ext_9", 9)]
             eq_refl eq_refl).
    intros e He. apply list_elem_of_singleton in He. subst e.
    intros Hin. simpl in Hin.
    apply elem_of_cons in Hin as [Hin|Hin]; [discriminate Hin|].
    apply list_elem_of_singleton in Hin. discriminate Hin.
Defined.

(** Both example sources lack "nowhere": the error is the file source's. *)
Lemma compositeSource_errors_from_file_witness :
  FindSymbol Examples.fileSource "nowhere"
  = Err (errorString "Symbol not found: nowhere")
  /\ exists err', FindSymbol Examples.reflSource "nowhere" = Err err'.
Proof.
  apply (compositeSource_errors_from_file Examples.number Examples.both
           "nowhere" (errorString "Symbol not found: nowhere")).
  reflexivity.
Defined.

(** The query and the fragment of "https://example.com/svc?x=1#top" play
    no role. *)
Lemma parseTarget_ignores_query_witness :
  parseTarget (fun _ => Ok MoreExamples.query_url)
    "https://example.com/svc?x=1#top"
  = parseTarget (fun _ => Ok MoreExamples.bare_url)
      "https://example.com/svc?x=1#top".
Proof.
  apply (parseTarget_ignores_query (fun _ => Ok MoreExamples.query_url)
           (fun _ => Ok MoreExamples.bare_url)
           "https://example.com/svc?x=1#top" MoreExamples.query_url
           MoreExamples.bare_url eq_refl eq_refl);
    [right; reflexivity | reflexivity | reflexivity | reflexivity].
Defined.

(** "https://example.com/svc" with no flag: TLS, and nothing else. *)
Lemma exactly_one_transport_mode_witness :
  exists usetls fp,
    main_usetls Examples.ext flags.defaults (Some Examples.https_svc) []
    = (Ret (usetls, fp), [])
    /\ main_validate Examples.ext flags.defaults usetls [] = (Ret tt, [])
    /\ ((fp = true /\ flags.usealts flags.defaults = false
         /\ usetls = false)
        \/ (fp = false /\ flags.usealts flags.defaults = true
            /\ usetls = false)
        \/ (fp = false /\ flags.usealts flags.defaults = false
            /\ usetls = true))
    /\ (forall pa, Some Examples.https_svc = Some pa -> wasURL pa = true ->
          (useTLS pa = true -> usetls = true)
          /\ (useTLS pa = false -> usetls = false)).
Proof.
  exists true, false.
  split; [reflexivity|]. split; [reflexivity|].
  exact (exactly_one_transport_mode Examples.ext flags.defaults
           (Some Examples.https_svc) true false [] [] [] eq_refl eq_refl).
Defined.

(** The socket path "/tmp/grpc.sock" is dialed as
    "unix:///tmp/grpc.sock". *)
Lemma dial_unix_target_witness :
  dial MoreExamples.unix_ext Examples.plaintext_only None "/tmp/grpc.sock"
    false true []
  = (Ret MoreExamples.unix_conn, [] ++ [BlockingDial MoreExamples.unix_conn])
  /\ cc_target MoreExamples.unix_conn = "unix://" +:+ "/tmp/grpc.sock".
Proof.
  split; [reflexivity|].
  destruct (dial_unix_target MoreExamples.unix_ext Examples.plaintext_only
              None "/tmp/grpc.sock" false true []
              [BlockingDial MoreExamples.unix_conn]
              (Ret MoreExamples.unix_conn) MoreExamples.unix_conn eq_refl)
    as [Hunix _]; [apply list_elem_of_here|].
  destruct (Hunix eq_refl) as (_ & _ & Hadd).
  exact (Hadd eq_refl).
Defined.

(** With no [-user-agent] and no version set, the one user-agent option
    is "grpcurl/dev-build (no version set)". *)
Lemma dial_user_agent_witness :
  exists opts tag,
    tag = (if String.eqb (version Examples.ext) noVersion
           then "grpcurl/dev-build (no version set)"
           else "grpcurl/" +:+ version Examples.ext)
    /\ cc_opts (Examples.plain_conn "localhost:8080")
       = opts ++ [WithUserAgent
                    ((if negb (String.eqb
                                 (flags.userAgent Examples.plaintext_only) "")
                      then flags.userAgent Examples.plaintext_only +:+ " "
                      else "") +:+ tag)]
    /\ (forall o0, In o0 opts -> forall ua, o0 <> WithUserAgent ua).
Proof.
  apply (dial_user_agent Examples.ext Examples.plaintext_only None
           "localhost:8080" false true []
           [BlockingDial (Examples.plain_conn "localhost:8080")]
           (Ret (Examples.plain_conn "localhost:8080"))
           (Examples.plain_conn "localhost:8080") eq_refl).
  apply list_elem_of_here.
Defined.

(** [-alts -authority override.example] dials as [-alts] does. *)
Lemma alts_ignores_authority_witness :
  main_dial Examples.ext
    (with_authority "override.example" MoreExamples.alts_only) None
    "localhost:8080" []
  = main_dial Examples.ext MoreExamples.alts_only None "localhost:8080" [].
Proof.
  apply (alts_ignores_authority Examples.ext MoreExamples.alts_only None
           "localhost:8080" "override.example" []); reflexivity.
Defined.

(** A client certificate that cannot be loaded ends the run with 1 before
    any dial. *)
Lemma tls_setup_failures_witness :
  exists es,
    dial MoreExamples.no_tls_ext flags.defaults None "localhost:8080" true
      false []
    = (Exited 1, [] ++ es)
    /\ dialed es = [].
Proof.
  destruct (tls_setup_failures MoreExamples.no_tls_ext flags.defaults None
              "localhost:8080" [] eq_refl) as [Hconf _].
  exact (Hconf (errorString "could not load client cert") eq_refl).
Defined.

(** "localhost:8080 list" is accepted as a listing. *)
Lemma main_args_shapes_witness :
  exists a,
    main_args Examples.ext url_ParseSimple flags.defaults
      ["localhost:8080"; "list"] []
    = (Ret a, [])
    /\ (arg_invoke a = false \/ arg_target a <> "").
Proof.
  eexists. split; [reflexivity|].
  destruct (main_args_shapes Examples.ext url_ParseSimple flags.defaults
              ["localhost:8080"; "list"] [] [] _ eq_refl)
    as [(verb & _ & Hinvoke & _) | (_ & _ & _ & _ & _ & Htarget & _)];
    [left; exact Hinvoke | right; exact Htarget].
Defined.

(** The same command line has an address and uses reflection. *)
Lemma main_args_schema_witness :
  exists a,
    main_args Examples.ext url_ParseSimple flags.defaults
      ["localhost:8080"; "list"] []
    = (Ret a, [])
    /\ (arg_target a <> "" \/ flags.protoset flags.defaults <> []
        \/ flags.protoFiles flags.defaults <> [])
    /\ (flags.val (arg_reflection a) = true
        \/ flags.protoset flags.defaults <> []
        \/ flags.protoFiles flags.defaults <> []).
Proof.
  eexists. split; [reflexivity|].
  destruct (main_args_schema Examples.ext url_ParseSimple flags.defaults
              ["localhost:8080"; "list"] [] [] _ eq_refl)
    as (Hschema & _ & Hrefl & _).
  exact (conj Hschema Hrefl).
Defined.

(** With a descriptor set and reflection the source is the composite. *)
Lemma main_sources_choice_witness :
  exists srcs t',
    main_sources Examples.ext MoreExamples.sext
      MoreExamples.protoset_reflection
      {| flags.set := true; flags.val := true |} None "localhost:8080"
      false true MoreExamples.no_headers []
    = (Ret srcs, t')
    /\ (is_Some (src_fileSource srcs)
        <-> flags.protoset MoreExamples.protoset_reflection <> []
            \/ flags.protoFiles MoreExamples.protoset_reflection <> []).
Proof.
  eexists _, _. split; [reflexivity|].
  exact (proj1 (main_sources_choice Examples.ext MoreExamples.sext
                  MoreExamples.protoset_reflection
                  {| flags.set := true; flags.val := true |} None
                  "localhost:8080" false true MoreExamples.no_headers []
                  _ _ eq_refl)).
Defined.

(** "localhost:8080 list" with a descriptor set, end to end. *)
Lemma main_setup_source_not_nil_witness :
  exists a srcs t',
    main_setup Examples.ext MoreExamples.sext
      MoreExamples.protoset_reflection url_ParseSimple
      ["localhost:8080"; "list"] []
    = (Ret (a, srcs), t')
    /\ src_descSource srcs <> nilSource
    /\ (flags.val (arg_reflection a) = true
        \/ is_Some (src_fileSource srcs)).
Proof.
  eexists _, _, _. split; [reflexivity|].
  exact (main_setup_source_not_nil Examples.ext MoreExamples.sext
           MoreExamples.protoset_reflection url_ParseSimple
           ["localhost:8080"; "list"] [] _ _ _ eq_refl).
Defined.

(** A descriptor set that cannot be read ends the run with 1, and nothing
    is dialed. *)
Lemma main_sources_file_failure_witness :
  exists es,
    main_sources Examples.ext MoreExamples.failing_sext
      MoreExamples.protoset_reflection
      {| flags.set := true; flags.val := true |} None "localhost:8080"
      false true MoreExamples.no_headers []
    = (Exited 1, [] ++ es)
    /\ dialed es = [].
Proof.
  apply (main_sources_file_failure Examples.ext MoreExamples.failing_sext
           MoreExamples.protoset_reflection
           {| flags.set := true; flags.val := true |} None "localhost:8080"
           false true MoreExamples.no_headers []
           (errorString "could not load protoset file")).
  left. split; [discriminate | reflexivity].
Defined.


(** A child of the root is a new node, listed by the root. *)
Lemma timingData_Child_appends_witness :
  exists child st',
    timingData_Child (Some 0%nat) "Dial" 1200 MoreExamples.timings
    = (Some child, st')
    /\ MoreExamples.timings !! child = None
    /\ st' !! 0%nat = Some (add_Sub MoreExamples.root child).
Proof.
  destruct (timingData_Child_appends MoreExamples.timings 0%nat
              MoreExamples.root "Dial" 1200 (lookup_singleton_eq _ _))
    as (child & st' & Hchild & Hfresh & _ & Hroot & _).
  exists child, st'. exact (conj Hchild (conj Hfresh Hroot)).
Defined.

(** The example comment, made pretty. *)
Lemma prettify_lines_witness :
  prettify MoreExamples.doc = Join (trimmed_lines MoreExamples.doc) nl
  /\ prettify MoreExamples.doc
     = "Says hello." +:+ nl +:+ "Returns a greeting.".
Proof.
  split; [|reflexivity].
  exact (proj1 (prettify_lines MoreExamples.doc eq_refl)).
Defined.

(** Making it pretty again changes nothing. *)
Lemma prettify_idempotent_witness :
  prettify (prettify MoreExamples.doc) = prettify MoreExamples.doc.
Proof. exact (prettify_idempotent MoreExamples.doc eq_refl). Defined.


(** [-protoset svc.protoset -use-reflection -plaintext list] dials the
    empty target. *)
Lemma reflection_dials_empty_target_witness :
  exists o es cc,
    main_setup Examples.ext MoreExamples.sext
      MoreExamples.protoset_reflection url_ParseSimple ["list"] []
    = (o, [] ++ es)
    /\ dialed es = [cc]
    /\ cc_target cc = ""
    /\ cc_creds cc = None.
Proof.
  apply (reflection_dials_empty_target Examples.ext MoreExamples.sext
           MoreExamples.protoset_reflection url_ParseSimple "list" [] []).
  - left. reflexivity.
  - apply Nat.le_0_1.
  - reflexivity.
  - discriminate.
  - reflexivity.
  - reflexivity.
  - unfold valid_args. simpl.
    repeat split; try reflexivity; try discriminate; try done; auto.
  - reflexivity.
  - exists Examples.fileSource. reflexivity.
  - discriminate.
Defined.

(** What [String] shows of a flag set to false, [Set] reads back. *)
Lemma optionalBoolFlag_round_trip_witness :
  optionalBoolFlag_Set MoreExamples.syntaxError
    {| flags.set := false; flags.val := true |}
    (optionalBoolFlag_String {| flags.set := true; flags.val := false |})
  = ({| flags.set := true; flags.val := false |}, None).
Proof.
  apply (optionalBoolFlag_round_trip MoreExamples.syntaxError
           {| flags.set := true; flags.val := false |}
           {| flags.set := false; flags.val := true |}).
  reflexivity.
Defined.

(** "https://example.com/svc list": the reflection requests carry
    "x-grpc-path: /svc". *)
Lemma path_header_reaches_reflection_witness :
  exists a srcs t' client,
    main_setup Examples.ext MoreExamples.sext flags.defaults url_ParseSimple
      ["https://example.com/svc"; "list"] []
    = (Ret (a, srcs), t')
    /\ src_refClient srcs = Some client
    /\ ref_headers client = [] ++ ["x-grpc-path: " +:+ "/svc"] ++ [].
Proof.
  eexists _, _, _, _. split; [reflexivity|]. split; [reflexivity|].
  destruct (path_header_reaches_reflection Examples.ext MoreExamples.sext
              flags.defaults url_ParseSimple
              ["https://example.com/svc"; "list"] [] _ _ _ _ eq_refl
              eq_refl)
    as (addl & refl & Hplain & _ & Hpath & _).
  destruct (Hplain eq_refl) as [-> ->].
  refine (Hpath _ eq_refl eq_refl _ _); discriminate.
Defined.
